(** * Structured-output strategy analysis

    A shallow embedding of
    [src/04-google-gauth-structured-output/strategy-analysis.ts]:
    [analyzeStructuredOutputStrategy] and [logStrategyAnalysis], together
    with the JavaScript built-ins they call ([Array.prototype.slice], [find],
    [reverse], array spread, [String.prototype.includes], [JSON.parse],
    [Object.keys], [console.log]).

    Layout: JavaScript values and strings; [JSON.parse]; the world (array
    store and console) with a state-and-exception monad; the two functions of
    the module; the vocabulary of the statements; then the properties.

    Conventions of the model.  A JavaScript string is held as the bytes of
    its generalised UTF-8 form: a surrogate pair is the four bytes of its
    character, a lone surrogate three bytes.  Lengths and positions count
    UTF-16 code units, obtained by decoding ([Js.units]); equal JavaScript
    strings are equal byte strings.  A number is the exact decimal of its
    literal, with the one test the code makes of it, whether it rounds to
    zero.  An array element is null, undefined, or an object with the fields
    of the message classes of the agent library; objects with fields of
    other types are outside the model. *)

From Stdlib Require Import ZArith NArith Ascii String List Bool Lia.
From stdpp Require Import base option list strings.

Local Open Scope string_scope.
Local Open Scope list_scope.
Local Set Warnings "-register-all".

(** ** JavaScript values *)

Module Js.

(** A JSON number literal, kept exact: the value is
    [(-1)^negative * mantissa * 10^exponent].  JavaScript rounds it to the
    nearest IEEE-754 double; the only thing the analysed code asks of a
    number is whether it is truthy, that is, whether that double is zero. *)
Record Number := mkNumber {
  negative : bool;
  mantissa : N;
  exponent : Z
}.

(** The double nearest to [mantissa * 10^exponent] is zero when the mantissa
    is zero, or when the magnitude is at most [2^-1075], half of the least
    subnormal [2^-1074] (the tie goes to the even neighbour, zero). *)
Definition rounds_to_zero (n : Number) : bool :=
  (mantissa n =? 0)%N
  || ((exponent n <? 0)%Z
      && (Z.of_N (mantissa n) * 2 ^ 1075 <=? 10 ^ (- exponent n))%Z).

(** Data values: what [JSON.parse] produces, and [undefined]. Objects keep
    their properties in creation order. *)
Inductive Value :=
| Undefined
| Null
| Bool (b : bool)
| Num (n : Number)
| Str (s : string)
| Arr (items : list Value)
| Obj (props : list (string * Value)).

(** [ToBoolean]. *)
Definition truthy (v : Value) : bool :=
  match v with
  | Undefined | Null => false
  | Bool b => b
  | Num n => negb (rounds_to_zero n)
  | Str s => negb (String.eqb s EmptyString)
  | Arr _ | Obj _ => true
  end.

(** [v !== undefined]. *)
Definition is_defined (v : Value) : bool :=
  match v with Undefined => false | _ => true end.

(** [typeof v === "string"]. *)
Definition is_string (v : Value) : bool :=
  match v with Str _ => true | _ => false end.

(** [s.includes(sub)]: [sub] occurs in [s] as a contiguous substring.  The
    code passes ASCII literals for [sub]; such a text occurs among the code
    units of a string exactly where it occurs among its bytes. *)
Fixpoint includes (s sub : string) : bool :=
  String.prefix sub s
  || match s with
     | EmptyString => false
     | String _ rest => includes rest sub
     end.

(** [xs.join(sep)] on an array of strings. *)
Fixpoint join (sep : string) (xs : list string) : string :=
  match xs with
  | [] => EmptyString
  | [x] => x
  | x :: rest => x ++ sep ++ join sep rest
  end.

(** [s.repeat(n)]. *)
Fixpoint repeat_string (s : string) (n : nat) : string :=
  match n with
  | O => EmptyString
  | S k => s ++ repeat_string s k
  end.

(** *** Code units

    The UTF-16 code units of a string, read off its bytes.  A byte that
    starts no well-formed sequence counts as one unit of its own. *)

Definition bytes (s : string) : list N := map N_of_ascii (list_ascii_of_string s).

Definition of_bytes (bs : list N) : string :=
  string_of_list_ascii (map ascii_of_N bs).

Definition is_continuation (b : N) : bool := (128 <=? b)%N && (b <? 192)%N.

Fixpoint units_of_bytes (bs : list N) : list N :=
  match bs with
  | [] => []
  | b0 :: t0 =>
      let alone := b0 :: units_of_bytes t0 in
      if (b0 <? 192)%N then alone
      else
        match t0 with
        | [] => alone
        | b1 :: t1 =>
            if negb (is_continuation b1) then alone
            else if (b0 <? 224)%N then
              ((b0 - 192) * 64 + (b1 - 128))%N :: units_of_bytes t1
            else
              match t1 with
              | [] => alone
              | b2 :: t2 =>
                  if negb (is_continuation b2) then alone
                  else if (b0 <? 240)%N then
                    ((b0 - 224) * 4096 + (b1 - 128) * 64 + (b2 - 128))%N
                    :: units_of_bytes t2
                  else
                    match t2 with
                    | [] => alone
                    | b3 :: t3 =>
                        let cp := ((b0 - 240) * 262144 + (b1 - 128) * 4096
                                   + (b2 - 128) * 64 + (b3 - 128))%N in
                        if is_continuation b3 && (65536 <=? cp)%N
                           && (cp <? 1114112)%N
                        then
                          (55296 + (cp - 65536) / 1024)%N
                          :: (56320 + (cp - 65536) mod 1024)%N
                          :: units_of_bytes t3
                        else alone
                    end
              end
        end
  end.

(** The bytes of one code point; a lone surrogate takes the three-byte form. *)
Definition utf8_of_code_point (cp : N) : list N :=
  if (cp <? 128)%N then [cp]
  else if (cp <? 2048)%N then [(192 + cp / 64)%N; (128 + cp mod 64)%N]
  else if (cp <? 65536)%N then
    [(224 + cp / 4096)%N; (128 + (cp / 64) mod 64)%N; (128 + cp mod 64)%N]
  else
    [(240 + cp / 262144)%N; (128 + (cp / 4096) mod 64)%N;
     (128 + (cp / 64) mod 64)%N; (128 + cp mod 64)%N].

Definition is_high_surrogate (u : N) : bool := (55296 <=? u)%N && (u <? 56320)%N.

Definition is_low_surrogate (u : N) : bool := (56320 <=? u)%N && (u <? 57344)%N.

(** The bytes of a sequence of code units: a high surrogate followed by a
    low one is the character they encode. *)
Fixpoint bytes_of_units (us : list N) : list N :=
  match us with
  | [] => []
  | u :: rest =>
      match rest with
      | v :: rest' =>
          if is_high_surrogate u && is_low_surrogate v then
            utf8_of_code_point (65536 + (u - 55296) * 1024 + (v - 56320))%N
            ++ bytes_of_units rest'
          else utf8_of_code_point u ++ bytes_of_units rest
      | [] => utf8_of_code_point u
      end
  end.

Definition units (s : string) : list N := units_of_bytes (bytes s).

Definition of_units (us : list N) : string := of_bytes (bytes_of_units us).

(** [s.length] *)
Definition length (s : string) : nat := List.length (units s).

(** [s.substring(0, n)]: the whole string when it has at most [n] code
    units, else its first [n] code units. *)
Definition substring_to (n : nat) (s : string) : string :=
  if (length s <=? n)%nat then s else of_units (firstn n (units s)).

(** Decimal rendering of an array index, as in [String(i)]. *)
Definition digit_char (d : nat) : ascii := ascii_of_nat (48 + d).

Fixpoint decimal_aux (fuel n : nat) (acc : string) : string :=
  match fuel with
  | O => acc
  | S f =>
      let acc' := String (digit_char (n mod 10)) acc in
      if (n / 10 =? 0)%nat then acc' else decimal_aux f (n / 10) acc'
  end.

Definition decimal (n : nat) : string := decimal_aux (S n) n EmptyString.

(** Setting a property: an existing key keeps its place and takes the new
    value, a new key goes last. *)
Fixpoint set_prop (props : list (string * Value)) (k : string) (v : Value)
  : list (string * Value) :=
  match props with
  | [] => [(k, v)]
  | (k', v') :: rest =>
      if String.eqb k k' then (k, v) :: rest else (k', v') :: set_prop rest k v
  end.

End Js.

(** ** Exceptions *)

Inductive Error :=
| TypeError      (* a property read on null or undefined, a call of a non-function *)
| SyntaxError.   (* JSON.parse on text that is not JSON *)

(** The outcome of evaluating an expression: a value, or a thrown exception. *)
Inductive Result (A : Type) :=
| Ok (a : A)
| Throw (e : Error).

Arguments Ok {A} a.
Arguments Throw {A} e.

(** ** JSON.parse

    The JSON grammar of ECMA-404, as [JSON.parse] accepts it: one value
    between optional whitespace; no trailing commas, no leading zeros, no
    control characters inside strings.  A text is first cut into tokens by a
    character-driven state machine, then the tokens drive a stack machine that
    builds the value; both are folds over their input, so parsing is total. *)

Module JSON.

Import Js.

Inductive Token :=
| TLBrace | TRBrace | TLBracket | TRBracket | TColon | TComma
| TString (s : string)
| TNumber (n : Number)
| TTrue | TFalse | TNull.

Definition code (c : ascii) : nat := nat_of_ascii c.

Definition is_whitespace (c : ascii) : bool :=
  let n := code c in
  (n =? 32)%nat || (n =? 9)%nat || (n =? 10)%nat || (n =? 13)%nat.

Definition is_digit (c : ascii) : bool :=
  let n := code c in (48 <=? n)%nat && (n <=? 57)%nat.

Definition is_lower (c : ascii) : bool :=
  let n := code c in (97 <=? n)%nat && (n <=? 122)%nat.

(** Characters that may continue a number once it has started. *)
Definition is_number_char (c : ascii) : bool :=
  is_digit c
  || Ascii.eqb c "-" || Ascii.eqb c "+" || Ascii.eqb c "."
  || Ascii.eqb c "e" || Ascii.eqb c "E".

Definition hex_value (c : ascii) : option nat :=
  let n := code c in
  if (48 <=? n)%nat && (n <=? 57)%nat then Some (n - 48)
  else if (65 <=? n)%nat && (n <=? 70)%nat then Some (n - 55)
  else if (97 <=? n)%nat && (n <=? 102)%nat then Some (n - 87)
  else None.

(** *** Numbers *)

Fixpoint span_digits (cs : list ascii) : list ascii * list ascii :=
  match cs with
  | c :: rest =>
      if is_digit c then let (ds, tl) := span_digits rest in (c :: ds, tl)
      else ([], cs)
  | [] => ([], [])
  end.

Definition digits_value (ds : list ascii) : N :=
  fold_left (fun acc c => (acc * 10 + N.of_nat (code c - 48))%N) ds 0%N.

(** The exponent part: nothing, or [e] or [E], an optional sign and at least
    one digit, up to the end of the lexeme. *)
Definition exponent_of (cs : list ascii) : option Z :=
  match cs with
  | [] => Some 0%Z
  | c :: rest =>
      if Ascii.eqb c "e" || Ascii.eqb c "E" then
        let '(sign, rest') :=
          match rest with
          | s :: r =>
              if Ascii.eqb s "-" then ((-1)%Z, r)
              else if Ascii.eqb s "+" then (1%Z, r)
              else (1%Z, rest)
          | [] => (1%Z, rest)
          end in
        match span_digits rest' with
        | (d :: ds, []) => Some (sign * Z.of_N (digits_value (d :: ds)))%Z
        | _ => None
        end
      else None
  end.

(** A number lexeme: an optional minus; an integer part that is a single
    zero or starts with a non-zero digit; an optional fraction (a dot and at
    least one digit); an optional exponent. *)
Definition number_of_lexeme (cs : list ascii) : option Number :=
  let '(neg, cs1) :=
    match cs with
    | c :: r => if Ascii.eqb c "-" then (true, r) else (false, cs)
    | [] => (false, cs)
    end in
  match span_digits cs1 with
  | ([], _) => None
  | (d :: more, cs2) =>
      if Ascii.eqb d "0" && negb (Nat.eqb (List.length more) 0) then None
      else
        let int_digits := d :: more in
        match cs2 with
        | c :: r =>
            if Ascii.eqb c "." then
              match span_digits r with
              | ([], _) => None
              | (f :: fs, cs3) =>
                  match exponent_of cs3 with
                  | Some e =>
                      Some (mkNumber neg
                              (digits_value (int_digits ++ f :: fs))
                              (e - Z.of_nat (List.length (f :: fs))))
                  | None => None
                  end
              end
            else
              match exponent_of cs2 with
              | Some e => Some (mkNumber neg (digits_value int_digits) e)
              | None => None
              end
        | [] => Some (mkNumber neg (digits_value int_digits) 0)
        end
  end.

(** *** Strings

    The text of a string literal is collected as bytes; a code unit written
    [\uXXXX] contributes the bytes of [Js.utf8_of_code_point].  When the
    literal closes the bytes are read as code units and written back
    ([string_value]), which joins an escaped high surrogate and the low
    surrogate after it into the four bytes of their character. *)
Definition bytes_of_escaped_unit (u : nat) : list ascii :=
  map ascii_of_N (utf8_of_code_point (N.of_nat u)).

Definition string_value (collected : list ascii) : string :=
  of_units (units (string_of_list_ascii collected)).

Definition simple_escape (c : ascii) : option ascii :=
  if Ascii.eqb c "034" then Some "034"%char
  else if Ascii.eqb c "\" then Some "\"%char
  else if Ascii.eqb c "/" then Some "/"%char
  else if Ascii.eqb c "b" then Some "008"%char
  else if Ascii.eqb c "f" then Some "012"%char
  else if Ascii.eqb c "n" then Some "010"%char
  else if Ascii.eqb c "r" then Some "013"%char
  else if Ascii.eqb c "t" then Some "009"%char
  else None.

(** *** The tokenizer *)

Inductive Mode :=
| Between                                        (* between two tokens *)
| InString (acc : list ascii)                    (* in a string; [acc] is reversed *)
| InEscape (acc : list ascii)                    (* just after a backslash *)
| InUnicode (acc : list ascii) (hex : list nat)  (* after [\u], digits read so far *)
| InNumber (acc : list ascii)                    (* in a number; [acc] is reversed *)
| InWord (acc : list ascii).                     (* in [true], [false] or [null] *)

(** The mode and the tokens produced so far, most recent first. *)
Definition LexState : Type := Mode * list Token.

Definition start_token (c : ascii) (toks : list Token) : option LexState :=
  if is_whitespace c then Some (Between, toks)
  else if Ascii.eqb c "{" then Some (Between, TLBrace :: toks)
  else if Ascii.eqb c "}" then Some (Between, TRBrace :: toks)
  else if Ascii.eqb c "[" then Some (Between, TLBracket :: toks)
  else if Ascii.eqb c "]" then Some (Between, TRBracket :: toks)
  else if Ascii.eqb c ":" then Some (Between, TColon :: toks)
  else if Ascii.eqb c "," then Some (Between, TComma :: toks)
  else if Ascii.eqb c "034" then Some (InString [], toks)
  else if is_digit c || Ascii.eqb c "-" then Some (InNumber [c], toks)
  else if is_lower c then Some (InWord [c], toks)
  else None.

Definition word_token (cs : list ascii) : option Token :=
  let w := string_of_list_ascii cs in
  if String.eqb w "true" then Some TTrue
  else if String.eqb w "false" then Some TFalse
  else if String.eqb w "null" then Some TNull
  else None.

Definition lex_step (st : LexState) (c : ascii) : option LexState :=
  let '(mode, toks) := st in
  match mode with
  | Between => start_token c toks
  | InString acc =>
      if Ascii.eqb c "034" then
        Some (Between, TString (string_value (rev acc)) :: toks)
      else if Ascii.eqb c "\" then Some (InEscape acc, toks)
      else if (code c <? 32)%nat then None
      else Some (InString (c :: acc), toks)
  | InEscape acc =>
      if Ascii.eqb c "u" then Some (InUnicode acc [], toks)
      else
        match simple_escape c with
        | Some e => Some (InString (e :: acc), toks)
        | None => None
        end
  | InUnicode acc hex =>
      match hex_value c with
      | None => None
      | Some h =>
          match hex with
          | [a; b; d] =>
              let u := (((a * 16 + b) * 16 + d) * 16 + h)%nat in
              Some (InString (rev (bytes_of_escaped_unit u) ++ acc), toks)
          | _ => Some (InUnicode acc (hex ++ [h]), toks)
          end
      end
  | InNumber acc =>
      if is_number_char c then Some (InNumber (c :: acc), toks)
      else
        match number_of_lexeme (rev acc) with
        | Some n => start_token c (TNumber n :: toks)
        | None => None
        end
  | InWord acc =>
      if is_lower c then Some (InWord (c :: acc), toks)
      else
        match word_token (rev acc) with
        | Some t => start_token c (t :: toks)
        | None => None
        end
  end.

Fixpoint lex_from (st : LexState) (cs : list ascii) : option LexState :=
  match cs with
  | [] => Some st
  | c :: rest =>
      match lex_step st c with
      | Some st' => lex_from st' rest
      | None => None
      end
  end.

(** At the end of the text a number or a word may still be open; a string
    may not. *)
Definition lex_finish (st : LexState) : option (list Token) :=
  let '(mode, toks) := st in
  match mode with
  | Between => Some (rev toks)
  | InNumber acc =>
      match number_of_lexeme (rev acc) with
      | Some n => Some (rev (TNumber n :: toks))
      | None => None
      end
  | InWord acc =>
      match word_token (rev acc) with
      | Some t => Some (rev (t :: toks))
      | None => None
      end
  | InString _ | InEscape _ | InUnicode _ _ => None
  end.

Definition tokenize (text : string) : option (list Token) :=
  match lex_from (Between, []) (list_ascii_of_string text) with
  | Some st => lex_finish st
  | None => None
  end.

(** *** The stack machine *)

(** A container under construction: an array with its items so far
    (reversed), or an object with its properties so far and the key whose
    value is being read. *)
Inductive Frame :=
| InArr (items : list Value)
| InObj (props : list (string * Value)) (key : string).

Inductive Expect :=
| XValue           (* a value: at the start, after a colon, after a comma in an array *)
| XValueOrClose    (* just after an opening bracket *)
| XKeyOrClose      (* just after an opening brace *)
| XKey             (* after a comma in an object *)
| XColon           (* after a key *)
| XCommaOrClose    (* after a value inside a container *)
| XEnd (v : Value). (* the value is complete *)

Definition ParseState : Type := Expect * list Frame.

(** A finished value goes into the innermost open container, or is the
    result. *)
Definition deliver (v : Value) (stack : list Frame) : ParseState :=
  match stack with
  | [] => (XEnd v, [])
  | InArr items :: up => (XCommaOrClose, InArr (v :: items) :: up)
  | InObj props k :: up => (XCommaOrClose, InObj (set_prop props k v) k :: up)
  end.

Definition begin_value (t : Token) (stack : list Frame) : option ParseState :=
  match t with
  | TString s => Some (deliver (Str s) stack)
  | TNumber n => Some (deliver (Num n) stack)
  | TTrue => Some (deliver (Bool true) stack)
  | TFalse => Some (deliver (Bool false) stack)
  | TNull => Some (deliver Null stack)
  | TLBracket => Some (XValueOrClose, InArr [] :: stack)
  | TLBrace => Some (XKeyOrClose, InObj [] EmptyString :: stack)
  | TRBrace | TRBracket | TColon | TComma => None
  end.

Definition close_array (stack : list Frame) : option ParseState :=
  match stack with
  | InArr items :: up => Some (deliver (Arr (rev items)) up)
  | _ => None
  end.

Definition close_object (stack : list Frame) : option ParseState :=
  match stack with
  | InObj props _ :: up => Some (deliver (Obj props) up)
  | _ => None
  end.

Definition read_key (t : Token) (stack : list Frame) : option ParseState :=
  match t, stack with
  | TString k, InObj props _ :: up => Some (XColon, InObj props k :: up)
  | _, _ => None
  end.

Definition parse_step (st : ParseState) (t : Token) : option ParseState :=
  let '(expect, stack) := st in
  match expect with
  | XValue => begin_value t stack
  | XValueOrClose =>
      match t with
      | TRBracket => close_array stack
      | _ => begin_value t stack
      end
  | XKeyOrClose =>
      match t with
      | TRBrace => close_object stack
      | _ => read_key t stack
      end
  | XKey => read_key t stack
  | XColon =>
      match t with
      | TColon => Some (XValue, stack)
      | _ => None
      end
  | XCommaOrClose =>
      match t, stack with
      | TComma, InArr _ :: _ => Some (XValue, stack)
      | TComma, InObj _ _ :: _ => Some (XKey, stack)
      | TRBracket, _ => close_array stack
      | TRBrace, _ => close_object stack
      | _, _ => None
      end
  | XEnd _ => None
  end.

Fixpoint parse_from (st : ParseState) (ts : list Token) : option ParseState :=
  match ts with
  | [] => Some st
  | t :: rest =>
      match parse_step st t with
      | Some st' => parse_from st' rest
      | None => None
      end
  end.

Definition value_of_tokens (ts : list Token) : option Value :=
  match parse_from (XValue, []) ts with
  | Some (XEnd v, _) => Some v
  | _ => None
  end.

(** [JSON.parse(text)]: the value, or a thrown [SyntaxError]. *)
Definition parse (text : string) : Result Value :=
  match tokenize text with
  | Some ts =>
      match value_of_tokens ts with
      | Some v => Ok v
      | None => Throw SyntaxError
      end
  | None => Throw SyntaxError
  end.

End JSON.

(** In examples a JSON text is written with single quotes in place of the
    double quotes of JSON; [dq] puts the double quotes back. *)
Definition dq (s : string) : string :=
  string_of_list_ascii
    (map (fun c => if Ascii.eqb c "'" then "034"%char else c)
       (list_ascii_of_string s)).

(** ** Messages

    The function takes [messages: any[]] and inspects each element by duck
    typing.  An element is modelled with exactly the properties the code
    reads; every one of them may be missing, as the optional chaining in the
    source allows, and otherwise has the type the message classes of the
    agent library give it.  No statement of the module assigns to a property
    of a message, so messages are values; the arrays that hold them are
    mutable ([reverse] works in place) and live in a store. *)

(** One entry of [tool_calls]; only its [name] is read. *)
Record ToolCall := mkToolCall {
  call_name : option string
}.

Module Message.

Record t := mk {
  constructor_name : option string;   (* [m.constructor?.name], the class name *)
  _getType : option string;           (* what [m._getType()] returns; [None]: no such method *)
  content : Js.Value;                 (* text, content blocks, or undefined *)
  tool_calls : option (list ToolCall);
  name : option string
}.

End Message.

(** An element of the array: a message object, or one of the two values on
    which any property read throws.  The statements below speak of arrays of
    such elements; an element of another shape (a number, an object whose
    [name] is not a string or whose [_getType] is not a function) is not a
    value of this type, and nothing is claimed about it. *)
Inductive Elem :=
| ENull
| EUndefined
| EObject (m : Message.t).

(** ** The world: arrays by reference, and the console *)

Definition Ref := nat.

Record World := mkWorld {
  arrays : list (list Elem);
  console : list string
}.

(** A computation reads and updates the world and returns or throws. *)
Definition M (A : Type) : Type := World -> Result A * World.

Definition ret {A} (a : A) : M A := fun w => (Ok a, w).

Definition bind {A B} (c : M A) (k : A -> M B) : M B :=
  fun w =>
    match c w with
    | (Ok a, w') => k a w'
    | (Throw e, w') => (Throw e, w')
    end.

Definition lift {A} (r : Result A) : M A := fun w => (r, w).

Notation "'let*' x ':=' c 'in' k" := (bind c (fun x => k))
  (at level 10, x name, c at level 100, k at level 200).

Module Array.

(** Reading through a reference that holds no array is the call of a method
    on something that is not an array. *)
Definition read (a : Ref) : M (list Elem) :=
  fun w =>
    match arrays w !! a with
    | Some l => (Ok l, w)
    | None => (Throw TypeError, w)
    end.

Definition alloc (l : list Elem) : M Ref :=
  fun w => (Ok (length (arrays w)), mkWorld (arrays w ++ [l]) (console w)).

Definition write (a : Ref) (l : list Elem) : M unit :=
  fun w => (Ok tt, mkWorld (<[a := l]> (arrays w)) (console w)).

(** [a.slice(start)]: a new array; a negative [start] counts from the end. *)
Definition slice (a : Ref) (start : Z) : M Ref :=
  let* l := read a in
  let len := Z.of_nat (length l) in
  let k := if (start <? 0)%Z then Z.max (len + start) 0 else Z.min start len in
  alloc (skipn (Z.to_nat k) l).

(** [[...a]]: a new array with the same elements. *)
Definition spread (a : Ref) : M Ref :=
  let* l := read a in alloc l.

(** [a.reverse()]: reverses [a] in place and returns it. *)
Definition reverse (a : Ref) : M Ref :=
  let* l := read a in
  let* _ := write a (rev l) in
  ret a.

(** The scan of [find]: the first element on which the callback is true,
    [undefined] if there is none; an exception of the callback ends it. *)
Fixpoint first_match (p : Elem -> Result bool) (l : list Elem) : Result Elem :=
  match l with
  | [] => Ok EUndefined
  | x :: rest =>
      match p x with
      | Ok true => Ok x
      | Ok false => first_match p rest
      | Throw e => Throw e
      end
  end.

Definition find (a : Ref) (p : Elem -> Result bool) : M Elem :=
  let* l := read a in lift (first_match p l).

End Array.

Definition console_log (line : string) : M unit :=
  fun w => (Ok tt, mkWorld (arrays w) (console w ++ [line])).

(** ** strategy-analysis.ts *)

Inductive StrategyType := TOOL_CALLING | PROVIDER_JSON | PROVIDER_NO_JSON | UNKNOWN.

(** [parsedJson] is [None] when the returned object has no such key, and
    [Some Js.Undefined] when the key is there with the value undefined. *)
Record StrategyAnalysis := mkAnalysis {
  strategy : StrategyType;
  structuredOutputWorked : bool;
  details : string;
  parsedJson : option Js.Value
}.

(** [o?.includes(sub)] on an optional string, as a condition. *)
Definition opt_includes (o : option string) (sub : string) : bool :=
  match o with
  | Some s => Js.includes s sub
  | None => false
  end.

(** A callback of [find] reads properties of its argument, which throws
    when the argument is null or undefined; on an object it evaluates the
    condition. *)
Definition callback (condition : Message.t -> bool) (m : Elem) : Result bool :=
  match m with
  | EObject o => Ok (condition o)
  | ENull | EUndefined => Throw TypeError
  end.

(** [m.tool_calls?.length > 0] *)
Definition has_tool_calls (m : Message.t) : bool :=
  match Message.tool_calls m with
  | Some calls => (0 <? length calls)%nat
  | None => false
  end.

(** [m.name?.includes("extract") || m.name?.includes("MovieRecommendation")] *)
Definition is_tool_response (m : Message.t) : bool :=
  opt_includes (Message.name m) "extract"
  || opt_includes (Message.name m) "MovieRecommendation".

(** [m.constructor?.name?.includes("AI") || m._getType?.() === "ai"] *)
Definition is_ai (m : Message.t) : bool :=
  opt_includes (Message.constructor_name m) "AI"
  || match Message._getType m with
     | Some ty => String.eqb ty "ai"
     | None => false
     end.

(** [!!m] for the result of a [find]. *)
Definition found (m : Elem) : bool :=
  match m with
  | EObject _ => true
  | ENull | EUndefined => false
  end.

(** [m?.content] *)
Definition content_of (m : Elem) : Js.Value :=
  match m with
  | EObject o => Message.content o
  | ENull | EUndefined => Js.Undefined
  end.

(** [m?.tool_calls?.[0]?.name] *)
Definition first_call_name (m : Elem) : option string :=
  match m with
  | EObject o =>
      match Message.tool_calls o with
      | Some (c :: _) => call_name c
      | _ => None
      end
  | ENull | EUndefined => None
  end.

(** [m?.name] *)
Definition name_of (m : Elem) : option string :=
  match m with
  | EObject o => Message.name o
  | ENull | EUndefined => None
  end.

(** [a || b] on optional strings: [a] unless it is undefined or empty. *)
Definition or_else (a b : option string) : option string :=
  match a with
  | Some s => if String.eqb s EmptyString then b else a
  | None => b
  end.

(** [a || "..."] with a string literal on the right. *)
Definition or_literal (a : option string) (lit : string) : string :=
  match a with
  | Some s => if String.eqb s EmptyString then lit else s
  | None => lit
  end.

Definition quote : string := String "034" EmptyString.

(** ** Object.keys *)

Module Object.

(** An array index as a property key: the canonical decimal text of an
    integer from 0 to 2^32 - 2. *)
Definition array_index (k : string) : option N :=
  match list_ascii_of_string k with
  | [] => None
  | d :: more =>
      if forallb JSON.is_digit (d :: more)
         && negb (Ascii.eqb d "0" && negb (Nat.eqb (length more) 0))
      then
        let v := JSON.digits_value (d :: more) in
        if (v <=? 4294967294)%N then Some v else None
      else None
  end.

Fixpoint insert_index (n : N) (k : string) (l : list (N * string))
  : list (N * string) :=
  match l with
  | [] => [(n, k)]
  | (n', k') :: rest =>
      if (n <=? n')%N then (n, k) :: l else (n', k') :: insert_index n k rest
  end.

(** The own keys of an ordinary object: array indices in ascending order,
    then the other keys in creation order. *)
Definition own_keys (props : list (string * Js.Value)) : list string :=
  let ks := map fst props in
  let indices :=
    fold_right
      (fun k acc =>
         match array_index k with
         | Some n => insert_index n k acc
         | None => acc
         end) [] ks in
  map snd indices
  ++ List.filter (fun k => match array_index k with Some _ => false | None => true end) ks.

(** [Object.keys(v)]: the indices of an array or of the code units of a
    string, nothing for a number or a boolean, a [TypeError] for null and
    undefined. *)
Definition keys (v : Js.Value) : Result (list string) :=
  match v with
  | Js.Obj props => Ok (own_keys props)
  | Js.Arr items => Ok (map Js.decimal (seq 0 (length items)))
  | Js.Str s => Ok (map Js.decimal (seq 0 (Js.length s)))
  | Js.Num _ | Js.Bool _ => Ok []
  | Js.Null | Js.Undefined => Throw TypeError
  end.

End Object.

(** [xs.includes(k)] on an array of strings. *)
Definition array_includes (xs : list string) (k : string) : bool :=
  existsb (String.eqb k) xs.

Definition strategy_text (s : StrategyType) : string :=
  match s with
  | TOOL_CALLING => "TOOL_CALLING"
  | PROVIDER_JSON => "PROVIDER_JSON"
  | PROVIDER_NO_JSON => "PROVIDER_NO_JSON"
  | UNKNOWN => "UNKNOWN"
  end.

Definition bool_text (b : bool) : string := if b then "true" else "false".

Definition newline : string := String "010" EmptyString.

Definition rule : string := Js.repeat_string "─" 50.

(** [schemaKeys.every(k => jsonKeys.includes(k))] *)
Definition has_expected_keys (schemaKeys jsonKeys : list string) : bool :=
  forallb (array_includes jsonKeys) schemaKeys.

Definition schema_match_line (hasExpectedKeys : bool) : string :=
  "Schema match: " ++ (if hasExpectedKeys then "✅ YES" else "❌ NO").

Section Analysis.

(** The parser behind [JSON.parse]. The functions are written over any
    parser; the module instantiates them with [JSON.parse] below. *)
Variable JSON_parse : string -> Result Js.Value.

(** Lines 47 to 55: [parsedJson] starts undefined; content that is a string
    is parsed, and whatever the parser throws is swallowed. *)
Definition try_parse (lastContent : Js.Value) : Js.Value :=
  match lastContent with
  | Js.Str text =>
      match JSON_parse text with
      | Ok v => v
      | Throw _ => Js.Undefined
      end
  | _ => Js.Undefined
  end.

(** Lines 57 to 89. *)
Definition determine (toolCallMessage toolResponseMessage : Elem)
    (lastContent parsed structuredResponse : Js.Value) : StrategyAnalysis :=
  let hasToolCalls := found toolCallMessage || found toolResponseMessage in
  if hasToolCalls then
    let toolName :=
      or_literal (or_else (first_call_name toolCallMessage)
                          (name_of toolResponseMessage)) "unknown" in
    mkAnalysis TOOL_CALLING
      (Js.is_defined structuredResponse)
      ("Tool calling strategy detected (tool: " ++ quote ++ toolName ++ quote ++ ")")
      (Some parsed)
  else if Js.truthy parsed then
    mkAnalysis PROVIDER_JSON
      (Js.is_defined structuredResponse || Js.is_defined parsed)
      "Provider strategy - response is valid JSON"
      (Some parsed)
  else if match lastContent with
          | Js.Str text => (0 <? Js.length text)%nat
          | _ => false
          end then
    mkAnalysis PROVIDER_NO_JSON
      false
      "Provider strategy attempted but response is NOT JSON (plain text/markdown)"
      None
  else
    mkAnalysis UNKNOWN
      (Js.is_defined structuredResponse)
      "Could not determine strategy"
      None.

Definition analyzeStructuredOutputStrategyWith
    (messages : Ref) (structuredResponse : Js.Value) : M StrategyAnalysis :=
  let* lastMessages := Array.slice messages (-5) in
  let* toolCallMessage := Array.find lastMessages (callback has_tool_calls) in
  let* toolResponseMessage := Array.find lastMessages (callback is_tool_response) in
  let* copy := Array.spread messages in
  let* reversed := Array.reverse copy in
  let* lastAiMessage := Array.find reversed (callback is_ai) in
  let lastContent := content_of lastAiMessage in
  let parsed := try_parse lastContent in
  ret (determine toolCallMessage toolResponseMessage
         lastContent parsed structuredResponse).

(** Lines 119 to 126, run when [analysis.parsedJson] is truthy. *)
Definition log_schema_match (json : Js.Value) (schemaKeys : list string) : M unit :=
  let* jsonKeys := lift (Object.keys json) in
  let hasExpectedKeys := has_expected_keys schemaKeys jsonKeys in
  let* _ := console_log (newline ++ "Parsed JSON keys: [" ++ Js.join ", " jsonKeys ++ "]") in
  let* _ := console_log ("Expected schema keys: [" ++ Js.join ", " schemaKeys ++ "]") in
  console_log (schema_match_line hasExpectedKeys).

(** Lines 132 to 136. *)
Definition log_preview (lastAiMessage : Elem) : M unit :=
  match content_of lastAiMessage with
  | Js.Str text =>
      if Js.truthy (Js.Str text) then
        let preview := Js.substring_to 200 text in
        let* _ := console_log (newline ++ "Last AI message preview (first 200 chars):") in
        console_log (quote ++ preview
                     ++ (if (200 <? Js.length text)%nat then "..." else EmptyString)
                     ++ quote)
      else ret tt
  | _ => ret tt
  end.

Definition logStrategyAnalysisWith (messages : Ref)
    (structuredResponse : Js.Value) (schemaKeys : list string) : M unit :=
  let* analysis := analyzeStructuredOutputStrategyWith messages structuredResponse in
  let* _ := console_log (newline ++ rule) in
  let* _ := console_log "📊 STRATEGY ANALYSIS" in
  let* _ := console_log rule in
  let* _ := console_log ("Strategy Detected: " ++ strategy_text (strategy analysis)) in
  let* _ := console_log ("Details: " ++ details analysis) in
  let* _ := console_log ("structuredResponse defined: "
                         ++ bool_text (Js.is_defined structuredResponse)) in
  let* _ := if structuredOutputWorked analysis
            then console_log "✅ Structured output WORKED"
            else console_log "❌ Structured output FAILED" in
  let json := match parsedJson analysis with Some v => v | None => Js.Undefined end in
  let* _ := if Js.truthy json then log_schema_match json schemaKeys else ret tt in
  let* copy := Array.spread messages in
  let* reversed := Array.reverse copy in
  let* lastAiMessage := Array.find reversed (callback is_ai) in
  let* _ := log_preview lastAiMessage in
  console_log rule.

End Analysis.

Definition analyzeStructuredOutputStrategy
  : Ref -> Js.Value -> M StrategyAnalysis :=
  analyzeStructuredOutputStrategyWith JSON.parse.

Definition logStrategyAnalysis
  : Ref -> Js.Value -> list string -> M unit :=
  logStrategyAnalysisWith JSON.parse.

(** ** What a call computes

    The vocabulary of the statements below: the window of the detection, the
    result of a call as a function of the array, and the classifications. *)

(** The elements [slice(-5)] keeps. *)
Definition last_five {A} (l : list A) : list A := skipn (length l - 5) l.

(** The result of a call on an array holding [l]. *)
Definition outcome (parse : string -> Result Js.Value)
    (l : list Elem) (structuredResponse : Js.Value)
  : Result StrategyAnalysis :=
  match Array.first_match (callback has_tool_calls) (last_five l) with
  | Throw e => Throw e
  | Ok toolCallMessage =>
      match Array.first_match (callback is_tool_response) (last_five l) with
      | Throw e => Throw e
      | Ok toolResponseMessage =>
          match Array.first_match (callback is_ai) (rev l) with
          | Throw e => Throw e
          | Ok lastAiMessage =>
              let lastContent := content_of lastAiMessage in
              Ok (determine toolCallMessage toolResponseMessage lastContent
                    (try_parse parse lastContent) structuredResponse)
          end
      end
  end.

(** The arrays a call creates: the slice, and, unless a callback of the
    first two scans throws, the reversed copy. *)
Definition allocated (l : list Elem) : list (list Elem) :=
  match Array.first_match (callback has_tool_calls) (last_five l) with
  | Throw _ => [last_five l]
  | Ok _ =>
      match Array.first_match (callback is_tool_response) (last_five l) with
      | Throw _ => [last_five l]
      | Ok _ => [last_five l; rev l]
      end
  end.

(** What a call returns, as a function of the array behind the reference and
    of structuredResponse. *)
Definition classification (trace : option (list Elem)) (structuredResponse : Js.Value)
  : Result StrategyAnalysis :=
  match trace with
  | Some l => outcome JSON.parse l structuredResponse
  | None => Throw TypeError
  end.

(** What [find] returns for the outcome of a search. *)
Definition elem_of (o : option Message.t) : Elem :=
  match o with
  | Some m => EObject m
  | None => EUndefined
  end.

(** The array behind [a] holds exactly the message objects [ms]. *)
Definition holds_trace (w : World) (a : Ref) (ms : list Message.t) : Prop :=
  arrays w !! a = Some (map EObject ms).

(** Either signal of the tool-calling detection. *)
Definition tool_signal (m : Message.t) : bool :=
  has_tool_calls m || is_tool_response m.

(** The most recent message that passes the assistant test. *)
Definition last_ai_message (ms : list Message.t) : option Message.t :=
  List.find is_ai (rev ms).

(** The name the rationale shows, read off the window. *)
Definition resolved_tool_name (window : list Message.t) : string :=
  or_literal
    (or_else (first_call_name (elem_of (List.find has_tool_calls window)))
             (name_of (elem_of (List.find is_tool_response window))))
    "unknown".

Definition tool_calling_details (toolName : string) : string :=
  "Tool calling strategy detected (tool: " ++ quote ++ toolName ++ quote ++ ")".

Definition provider_json (parsed : Js.Value) : StrategyAnalysis :=
  mkAnalysis PROVIDER_JSON true "Provider strategy - response is valid JSON"
    (Some parsed).

Definition provider_no_json : StrategyAnalysis :=
  mkAnalysis PROVIDER_NO_JSON false
    "Provider strategy attempted but response is NOT JSON (plain text/markdown)"
    None.

Definition unknown (structuredResponse : Js.Value) : StrategyAnalysis :=
  mkAnalysis UNKNOWN (Js.is_defined structuredResponse)
    "Could not determine strategy" None.

(** ** What a call logs *)

(** The three lines about the keys, printed when the recovered JSON is
    truthy. *)
Definition schema_lines (json : Js.Value) (schemaKeys : list string) : list string :=
  if Js.truthy json then
    match Object.keys json with
    | Ok jsonKeys =>
        [ (newline ++ "Parsed JSON keys: [" ++ Js.join ", " jsonKeys ++ "]")%string;
          ("Expected schema keys: [" ++ Js.join ", " schemaKeys ++ "]")%string;
          schema_match_line (has_expected_keys schemaKeys jsonKeys) ]
    | Throw _ => []
    end
  else [].

(** The two lines of the preview, printed when the last assistant content is
    a non-empty string. *)
Definition preview_lines (lastAiMessage : Elem) : list string :=
  match content_of lastAiMessage with
  | Js.Str text =>
      if Js.truthy (Js.Str text) then
        [ (newline ++ "Last AI message preview (first 200 chars):")%string;
          (quote ++ Js.substring_to 200 text
           ++ (if (200 <? Js.length text)%nat then "..." else EmptyString)
           ++ quote)%string ]
      else []
  | _ => []
  end.

(** Everything one call logs. *)
Definition report (analysis : StrategyAnalysis) (structuredResponse : Js.Value)
    (schemaKeys : list string) (lastAiMessage : Elem) : list string :=
  [ (newline ++ rule)%string;
    "📊 STRATEGY ANALYSIS";
    rule;
    ("Strategy Detected: " ++ strategy_text (strategy analysis))%string;
    ("Details: " ++ details analysis)%string;
    ("structuredResponse defined: "
     ++ bool_text (Js.is_defined structuredResponse))%string;
    if structuredOutputWorked analysis
    then "✅ Structured output WORKED" else "❌ Structured output FAILED" ]
  ++ schema_lines
       (match parsedJson analysis with Some v => v | None => Js.Undefined end)
       schemaKeys
  ++ preview_lines lastAiMessage
  ++ [rule].

(** A line lists the missing keys when it mentions every expected key that
    the JSON lacks and no expected key that the JSON has. *)
Definition lists_missing_keys (schemaKeys jsonKeys : list string) (line : string)
  : bool :=
  forallb (fun k => Bool.eqb (Js.includes line k) (negb (array_includes jsonKeys k)))
    schemaKeys.

(** ** Example messages

    Objects shaped like the message classes of the agent library: the class
    name, what [_getType()] returns, and the fields the analysis reads. *)

Definition AIMessage (content : Js.Value) (tool_calls : option (list ToolCall))
  : Message.t :=
  Message.mk (Some "AIMessage") (Some "ai") content tool_calls None.

Definition HumanMessage (text : string) : Message.t :=
  Message.mk (Some "HumanMessage") (Some "human") (Js.Str text) None None.

Definition ToolMessage (text : string) (name : string) : Message.t :=
  Message.mk (Some "ToolMessage") (Some "tool") (Js.Str text) None (Some name).

(** A world with one array, at reference 0, and an empty console. *)
Definition world_of (l : list Elem) : World := mkWorld [l] [].

Definition trace_world (ms : list Message.t) : World := world_of (map EObject ms).

(** A trace of six messages: an assistant turn that calls a tool, then five
    user turns.  The tool call lies outside the last five messages. *)
Definition early_tool_call_trace : list Message.t :=
  [ AIMessage (Js.Str EmptyString) (Some [mkToolCall (Some "tavily_search")]);
    HumanMessage "one"; HumanMessage "two"; HumanMessage "three";
    HumanMessage "four"; HumanMessage "five" ].

(** The trace of the key-match example: the assistant answered with a JSON
    object that has a title and a year. *)
Definition title_year_trace : list Message.t :=
  [AIMessage (Js.Str (dq "{'title':'x','year':1}")) None].

Definition title_year_report : list string :=
  console (snd (logStrategyAnalysis 0 Js.Undefined ["title"; "year"; "genre"]
                  (trace_world title_year_trace))).

(** A trace whose only message is a user turn; the participant is named
    data-extractor. *)
Definition named_user_trace : list Message.t :=
  [Message.mk (Some "HumanMessage") (Some "human") (Js.Str "hello") None
     (Some "data-extractor")].

(** ** Further vocabulary *)

(** Null or undefined: an element whose properties cannot be read. *)
Definition nullish (e : Elem) : bool :=
  match e with
  | EObject _ => false
  | ENull | EUndefined => true
  end.

(** The value [analysis.parsedJson] reads as: undefined when the key is
    missing. *)
Definition recovered_json (analysis : StrategyAnalysis) : Js.Value :=
  match parsedJson analysis with
  | Some v => v
  | None => Js.Undefined
  end.

(** The content is a non-empty string. *)
Definition has_text (content : Js.Value) : bool :=
  match content with
  | Js.Str text => negb (String.eqb text EmptyString)
  | _ => false
  end.

(** What the scan for the last assistant message yields on an array, when it
    does not throw. *)
Definition last_ai_element (l : list Elem) : Elem :=
  match Array.first_match (callback is_ai) (rev l) with
  | Ok m => m
  | Throw _ => EUndefined
  end.

(** A long answer: 250 characters of prose. *)
Definition long_answer : string := Js.repeat_string "prose " 40 ++ "and more.!".

(** An answer of 150 accented letters: 150 code units, 300 bytes of UTF-8. *)
Definition accented_answer : string := Js.repeat_string "é" 150.

(** ** The tool-calling rule on the data

    The signals of rule 1 and the name shown in the rationale, stated on the
    fields of the messages, without the callbacks of the code. *)

(** [sub] occurs in [s]. *)
Definition contains (s sub : string) : Prop :=
  exists before after, s = (before ++ sub ++ after)%string.

(** A message with at least one tool invocation. *)
Definition carries_tool_invocation (m : Message.t) : Prop :=
  exists c cs, Message.tool_calls m = Some (c :: cs).

(** A message whose name contains an extraction marker. *)
Definition has_marker_name (m : Message.t) : Prop :=
  exists n, Message.name m = Some n
            /\ (contains n "extract" \/ contains n "MovieRecommendation").

(** A message written by the assistant: the name of its class contains AI,
    or its type is ai. *)
Definition assistant_authored (m : Message.t) : Prop :=
  (exists cn, Message.constructor_name m = Some cn /\ contains cn "AI")
  \/ Message._getType m = Some "ai".

(** [m] is the first message of [l] with [P], and the last one. *)
Definition first_with (P : Message.t -> Prop) (l : list Message.t) (m : Message.t)
  : Prop :=
  exists before after,
    l = before ++ m :: after /\ P m /\ forall x, In x before -> ~ P x.

Definition last_with (P : Message.t -> Prop) (l : list Message.t) (m : Message.t)
  : Prop :=
  exists before after,
    l = before ++ m :: after /\ P m /\ forall x, In x after -> ~ P x.

(** The first invocation of the first message with invocations is named
    [n], and [n] is not empty. *)
Definition invoked_tool (window : list Message.t) (n : string) : Prop :=
  exists m c cs,
    first_with carries_tool_invocation window m
    /\ Message.tool_calls m = Some (c :: cs)
    /\ call_name c = Some n
    /\ n <> EmptyString.

(** The first message with a marker name is named [n]. *)
Definition marker_name (window : list Message.t) (n : string) : Prop :=
  exists m, first_with has_marker_name window m /\ Message.name m = Some n.

(** The tool a window names: the invoked tool when there is one; else the
    name of the first message with a marker name; else unknown. *)
Inductive names_tool (window : list Message.t) : string -> Prop :=
| names_invoked (n : string) :
    invoked_tool window n -> names_tool window n
| names_marker (n : string) :
    (forall n', ~ invoked_tool window n') ->
    marker_name window n -> names_tool window n
| names_unknown :
    (forall n', ~ invoked_tool window n') ->
    (forall n', ~ marker_name window n') ->
    names_tool window "unknown".

(** A trace whose only signal is a tool invocation, with JSON content. *)
Definition call_only_trace : list Message.t :=
  [ HumanMessage "Search for recent AI news and summarize";
    AIMessage (Js.Str (dq "{'title':'Blade Runner','year':1982}"))
      (Some [mkToolCall (Some "tavily_search")]) ].

(** A trace whose only signal is the name of a tool result. *)
Definition marker_only_trace : list Message.t :=
  [ HumanMessage "Recommend a classic sci-fi movie from the 1980s";
    AIMessage (Js.Str "Let me look.") None;
    ToolMessage "ok" "extract-1" ].

(** A trace with neither signal. *)
Definition plain_trace : list Message.t :=
  [ HumanMessage "hello"; AIMessage (Js.Str "Hello!") None ].

(** A trace whose assistant content is the JSON text of the one-letter
    string é: one code unit, two bytes of UTF-8. *)
Definition accent_trace : list Message.t :=
  [AIMessage (Js.Str (quote ++ "é" ++ quote)) None].

(** A trace whose assistant content is a JSON object with one key, an emoji
    written as an escaped surrogate pair. *)
Definition emoji_trace : list Message.t :=
  [AIMessage (Js.Str (dq "{'\ud83d\ude00':1}")) None].

(** ** Arithmetic of the code units

    Tactics for the tests on bytes and code units. *)

Ltac div_lia := zify; Z.to_euclidean_division_equations; lia.

Ltac decide_tests :=
  repeat match goal with
         | |- context [(?a <? ?b)%N] =>
             destruct (N.ltb_spec a b); try (exfalso; div_lia)
         | |- context [(?a <=? ?b)%N] =>
             destruct (N.leb_spec a b); try (exfalso; div_lia)
         end.

(** * Properties *)

(** ** Running the analysis

    What a call computes from the array behind its first argument, and what
    it leaves in the world. *)

Section Run.

Variable parse : string -> Result Js.Value.

Lemma slice_last_five (w : World) (a : Ref) (l : list Elem) :
  arrays w !! a = Some l ->
  Array.slice a (-5) w
  = (Ok (length (arrays w)), mkWorld (arrays w ++ [last_five l]) (console w)).
Proof.
  intros Ha. unfold Array.slice, bind, Array.read, Array.alloc. rewrite Ha. simpl.
  replace (Z.to_nat (Z.max (Z.of_nat (length l) + -5) 0)) with (length l - 5) by lia.
  reflexivity.
Qed.

Lemma lookup_fresh {A} (store : list A) (x : A) (more : list A) :
  (store ++ x :: more) !! length store = Some x.
Proof. apply list_lookup_middle. reflexivity. Qed.

Lemma lookup_kept {A} (store more : list A) (a : nat) (x : A) :
  store !! a = Some x -> (store ++ more) !! a = Some x.
Proof. apply lookup_app_l_Some. Qed.

Lemma insert_last {A} (store : list A) (x y z : A) :
  <[length (store ++ [x]) := z]> ((store ++ [x]) ++ [y]) = store ++ [x; z].
Proof.
  rewrite insert_app_r_alt by lia.
  rewrite Nat.sub_diag. simpl. rewrite <- app_assoc. reflexivity.
Qed.

Lemma run_analyze (w : World) (a : Ref) (l : list Elem) (sr : Js.Value) :
  arrays w !! a = Some l ->
  analyzeStructuredOutputStrategyWith parse a sr w
  = (outcome parse l sr, mkWorld (arrays w ++ allocated l) (console w)).
Proof.
  intros Ha. unfold analyzeStructuredOutputStrategyWith, outcome, allocated.
  unfold bind at 1. rewrite (slice_last_five w a l Ha).
  unfold bind at 1. unfold Array.find at 1, bind at 1, Array.read at 1. simpl arrays.
  rewrite lookup_fresh. unfold lift at 1.
  destruct (Array.first_match (callback has_tool_calls) (last_five l)) as [tcm|e]; [|reflexivity].
  unfold bind at 1. unfold Array.find at 1, bind at 1, Array.read at 1. simpl arrays.
  rewrite lookup_fresh. unfold lift at 1.
  destruct (Array.first_match (callback is_tool_response) (last_five l)) as [trm|e]; [|reflexivity].
  unfold bind at 1. unfold Array.spread, bind at 1, Array.read at 1. simpl arrays.
  rewrite (lookup_kept _ _ _ _ Ha). unfold Array.alloc. simpl arrays. simpl console.
  unfold bind at 1. unfold Array.reverse, bind at 1, Array.read at 1. simpl arrays.
  rewrite lookup_fresh. unfold bind at 1, Array.write, ret at 1. simpl arrays. simpl console.
  rewrite insert_last.
  unfold bind at 1. unfold Array.find at 1, bind at 1, Array.read at 1. simpl arrays.
  replace (length (arrays w ++ [last_five l])) with (length (arrays w ++ [last_five l]) + 0) by lia.
  rewrite (app_assoc (arrays w) [last_five l] [rev l]) at 1.
  rewrite lookup_app_r by lia.
  replace (length (arrays w ++ [last_five l]) + 0 - length (arrays w ++ [last_five l])) with 0 by lia.
  simpl. unfold lift.
  destruct (Array.first_match (callback is_ai) (rev l)) as [ai|e]; reflexivity.
Qed.

End Run.

(** ** Traces of message objects

    When every element of the array is an object no callback throws, and the
    three scans are plain searches. *)

Lemma first_match_objects (p : Message.t -> bool) (ms : list Message.t) :
  Array.first_match (callback p) (map EObject ms) = Ok (elem_of (List.find p ms)).
Proof.
  induction ms as [|m ms IH]; simpl; [reflexivity|].
  destruct (p m); [reflexivity | exact IH].
Qed.

Lemma last_five_objects (ms : list Message.t) :
  last_five (map EObject ms) = map EObject (last_five ms).
Proof. unfold last_five. rewrite length_map. apply skipn_map. Qed.

Lemma last_five_short {A} (l : list A) : length l <= 5 -> last_five l = l.
Proof. intros H. unfold last_five. replace (length l - 5) with 0 by lia. reflexivity. Qed.

Lemma last_five_app {A} (older recent : list A) :
  length recent = 5 -> last_five (older ++ recent) = recent.
Proof.
  intros H. unfold last_five. rewrite length_app, H.
  replace (length older + 5 - 5) with (length older + 0) by lia.
  rewrite skipn_app, Nat.add_0_r, skipn_all.
  replace (length older - length older) with 0 by lia. reflexivity.
Qed.

Lemma find_none_existsb {A} (p q : A -> bool) (l : list A) :
  existsb q l = false -> (forall x, p x = true -> q x = true) -> List.find p l = None.
Proof.
  intros Hq Himp. induction l as [|x l IH]; simpl in *; [reflexivity|].
  apply orb_false_iff in Hq as [Hx Hl].
  destruct (p x) eqn:Hp.
  - apply Himp in Hp. congruence.
  - auto.
Qed.

Lemma no_signal_no_match (window : list Message.t) :
  existsb tool_signal window = false ->
  List.find has_tool_calls window = None /\ List.find is_tool_response window = None.
Proof.
  intros H. split; apply (find_none_existsb _ tool_signal); auto;
    intros x Hx; unfold tool_signal; rewrite Hx; auto using orb_true_r.
Qed.

Lemma signal_match (window : list Message.t) :
  existsb tool_signal window = true ->
  found (elem_of (List.find has_tool_calls window))
  || found (elem_of (List.find is_tool_response window)) = true.
Proof.
  intros H. apply existsb_exists in H as (m & Hin & Hm).
  unfold tool_signal in Hm. apply orb_true_iff in Hm as [Hm|Hm].
  - destruct (List.find has_tool_calls window) eqn:Hf; [reflexivity|].
    rewrite (find_none _ _ Hf m Hin) in Hm. discriminate.
  - destruct (List.find is_tool_response window) eqn:Hf; [apply orb_true_r|].
    rewrite (find_none _ _ Hf m Hin) in Hm. discriminate.
Qed.

Section ObjectTraces.

Variable parse : string -> Result Js.Value.

Lemma outcome_objects (ms : list Message.t) (sr : Js.Value) :
  outcome parse (map EObject ms) sr
  = Ok (determine
          (elem_of (List.find has_tool_calls (last_five ms)))
          (elem_of (List.find is_tool_response (last_five ms)))
          (content_of (elem_of (last_ai_message ms)))
          (try_parse parse (content_of (elem_of (last_ai_message ms))))
          sr).
Proof.
  unfold outcome, last_ai_message.
  rewrite last_five_objects, !first_match_objects, <- map_rev, first_match_objects.
  reflexivity.
Qed.

Lemma returns_objects (w : World) (a : Ref) (ms : list Message.t) (sr : Js.Value) :
  holds_trace w a ms ->
  fst (analyzeStructuredOutputStrategyWith parse a sr w)
  = Ok (determine
          (elem_of (List.find has_tool_calls (last_five ms)))
          (elem_of (List.find is_tool_response (last_five ms)))
          (content_of (elem_of (last_ai_message ms)))
          (try_parse parse (content_of (elem_of (last_ai_message ms))))
          sr).
Proof.
  intros H. rewrite (run_analyze parse w a _ sr H). simpl. apply outcome_objects.
Qed.

(** With a signal in the window the first branch is taken. *)
Lemma determine_tool_calling (window : list Message.t)
    (lastContent parsed sr : Js.Value) :
  existsb tool_signal window = true ->
  determine (elem_of (List.find has_tool_calls window))
            (elem_of (List.find is_tool_response window)) lastContent parsed sr
  = mkAnalysis TOOL_CALLING (Js.is_defined sr)
      (tool_calling_details (resolved_tool_name window)) (Some parsed).
Proof.
  intros H. unfold determine. rewrite (signal_match window H). reflexivity.
Qed.

(** Without one the decision rests on the content and on what was parsed. *)
Lemma determine_no_signal (window : list Message.t)
    (lastContent parsed sr : Js.Value) :
  existsb tool_signal window = false ->
  determine (elem_of (List.find has_tool_calls window))
            (elem_of (List.find is_tool_response window)) lastContent parsed sr
  = determine EUndefined EUndefined lastContent parsed sr.
Proof.
  intros H. destruct (no_signal_no_match window H) as [-> ->]. reflexivity.
Qed.

End ObjectTraces.

(** ** Substrings *)

Lemma prefix_append (s t : string) : String.prefix s (s ++ t) = true.
Proof.
  induction s as [|c s IH]; simpl.
  - destruct t; reflexivity.
  - destruct (Ascii.ascii_dec c c); [exact IH | congruence].
Qed.

Lemma includes_unfold (s sub : string) :
  Js.includes s sub
  = String.prefix sub s
    || match s with
       | EmptyString => false
       | String _ rest => Js.includes rest sub
       end.
Proof. destruct s; reflexivity. Qed.

Lemma includes_here (sub t : string) : Js.includes (sub ++ t) sub = true.
Proof. rewrite includes_unfold, prefix_append. reflexivity. Qed.

Lemma includes_later (before s sub : string) :
  Js.includes s sub = true -> Js.includes (before ++ s) sub = true.
Proof.
  intros H. induction before as [|c before IH]; simpl; [exact H|].
  rewrite IH. apply orb_true_r.
Qed.

Lemma append_empty (s : string) : (s ++ EmptyString)%string = s.
Proof.
  induction s as [|c s IH]; [reflexivity|].
  change (String c (s ++ EmptyString)%string = String c s). f_equal. exact IH.
Qed.

Lemma append_associative (s t u : string) :
  ((s ++ t) ++ u)%string = (s ++ t ++ u)%string.
Proof.
  induction s as [|c s IH]; [reflexivity|].
  change (String c ((s ++ t) ++ u)%string = String c (s ++ t ++ u)%string).
  f_equal. exact IH.
Qed.

(** A string has no code units exactly when it is empty. *)
Lemma length_zero (s : string) : Js.length s = 0 <-> s = EmptyString.
Proof.
  split; [|intros ->; reflexivity].
  destruct s as [|c s]; [reflexivity|].
  unfold Js.length, Js.units, Js.bytes. simpl map.
  cbn [Js.units_of_bytes].
  repeat match goal with
         | |- context [if ?c then _ else _] => destruct c
         | |- context [match ?l with [] => _ | _ :: _ => _ end] => destruct l
         end; discriminate.
Qed.

Lemma nonempty_length (text : string) :
  text <> EmptyString -> (0 <? Js.length text)%nat = true.
Proof.
  intros H. apply Nat.ltb_lt.
  destruct (Js.length text) eqn:Hl; [|lia].
  apply length_zero in Hl. congruence.
Qed.

Lemma empty_length : (0 <? Js.length EmptyString)%nat = false.
Proof. reflexivity. Qed.

(** ** Provider JSON (rule 2) *)

Lemma truthy_is_defined (v : Js.Value) : Js.truthy v = true -> Js.is_defined v = true.
Proof. destruct v; simpl; congruence. Qed.

(** Content that parses to a truthy value (an object, an array, a non-empty
    string, a non-zero number, [true]) is classified [PROVIDER_JSON]. *)
Lemma truthy_json_is_provider_json
    (w : World) (a : Ref) (ms : list Message.t) (sr : Js.Value)
    (m : Message.t) (text : string) (v : Js.Value) :
  holds_trace w a ms ->
  existsb tool_signal (last_five ms) = false ->
  last_ai_message ms = Some m ->
  Message.content m = Js.Str text ->
  JSON.parse text = Ok v ->
  Js.truthy v = true ->
  fst (analyzeStructuredOutputStrategy a sr w) = Ok (provider_json v).
Proof.
  intros Hw Hsig Hai Hc Hp Ht. unfold analyzeStructuredOutputStrategy.
  rewrite (returns_objects _ w a ms sr Hw), (determine_no_signal _ _ _ _ Hsig), Hai.
  simpl. rewrite Hc. simpl. rewrite Hp. unfold determine. simpl. rewrite Ht.
  rewrite (truthy_is_defined v Ht), orb_true_r. reflexivity.
Qed.

Lemma parse_empty : JSON.parse EmptyString = Throw SyntaxError.
Proof. reflexivity. Qed.

(** Content that parses to a falsy value ([null], [false], zero, the empty
    string) fails the test [if (parsedJson)] and is reported as not JSON. *)
Lemma falsy_json_is_reported_not_json
    (w : World) (a : Ref) (ms : list Message.t) (sr : Js.Value)
    (m : Message.t) (text : string) (v : Js.Value) :
  holds_trace w a ms ->
  existsb tool_signal (last_five ms) = false ->
  last_ai_message ms = Some m ->
  Message.content m = Js.Str text ->
  JSON.parse text = Ok v ->
  Js.truthy v = false ->
  fst (analyzeStructuredOutputStrategy a sr w) = Ok provider_no_json.
Proof.
  intros Hw Hsig Hai Hc Hp Ht. unfold analyzeStructuredOutputStrategy.
  rewrite (returns_objects _ w a ms sr Hw), (determine_no_signal _ _ _ _ Hsig), Hai.
  simpl. rewrite Hc. simpl. rewrite Hp. unfold determine. simpl. rewrite Ht.
  destruct text as [|c text]; [rewrite parse_empty in Hp; discriminate|].
  rewrite nonempty_length by discriminate. reflexivity.
Qed.

(** C1, at the input where the code departs from it.  The trace is a single
    assistant message whose content is the JSON text null (likewise 0, false
    and the empty JSON string); no tool calling is detected and [JSON.parse]
    succeeds, yet the result is PROVIDER_NO_JSON with structuredOutputWorked
    false and without parsedJson, not PROVIDER_JSON: the parsed value is
    falsy, and line 68 tests [if (parsedJson)]. *)
Theorem C1_falsy_json_content_is_not_provider_json :
  (JSON.parse "null" = Ok Js.Null
   /\ existsb tool_signal (last_five [AIMessage (Js.Str "null") None]) = false
   /\ fst (analyzeStructuredOutputStrategy 0 Js.Undefined
             (trace_world [AIMessage (Js.Str "null") None]))
      = Ok provider_no_json)
  /\ (JSON.parse "0" = Ok (Js.Num (Js.mkNumber false 0 0))
      /\ fst (analyzeStructuredOutputStrategy 0 Js.Undefined
                (trace_world [AIMessage (Js.Str "0") None]))
         = Ok provider_no_json)
  /\ (JSON.parse "false" = Ok (Js.Bool false)
      /\ fst (analyzeStructuredOutputStrategy 0 Js.Undefined
                (trace_world [AIMessage (Js.Str "false") None]))
         = Ok provider_no_json)
  /\ (JSON.parse (quote ++ quote) = Ok (Js.Str EmptyString)
      /\ fst (analyzeStructuredOutputStrategy 0 Js.Undefined
                (trace_world [AIMessage (Js.Str (quote ++ quote)) None]))
         = Ok provider_no_json).
Proof. repeat split; vm_compute; reflexivity. Qed.

(** ** Tool calling (rule 1) *)

(** Past the first branch the strategy is one of the other three. *)
Lemma no_signal_not_tool_calling (lastContent parsed sr : Js.Value) :
  strategy (determine EUndefined EUndefined lastContent parsed sr) <> TOOL_CALLING.
Proof.
  unfold determine. simpl.
  destruct (Js.truthy parsed); [discriminate|].
  destruct lastContent as [| |b|n|text|items|props]; try discriminate.
  destruct (0 <? Js.length text)%nat; discriminate.
Qed.


(** ** The signals on the data *)

Lemma prefix_split (sub s : string) :
  String.prefix sub s = true -> exists after, s = (sub ++ after)%string.
Proof.
  revert s. induction sub as [|c sub IH]; intros s H.
  - exists s. reflexivity.
  - destruct s as [|d s]; [discriminate|]. simpl in H.
    destruct (Ascii.ascii_dec c d) as [->|]; [|discriminate].
    destruct (IH s H) as [after ->]. exists after. reflexivity.
Qed.

Lemma includes_contains (s sub : string) :
  Js.includes s sub = true <-> contains s sub.
Proof.
  split.
  - induction s as [|c s IH]; rewrite includes_unfold; intros H;
      apply orb_true_iff in H as [H|H].
    + destruct (prefix_split _ _ H) as [after ->]. exists EmptyString, after. reflexivity.
    + discriminate.
    + destruct (prefix_split _ _ H) as [after ->]. exists EmptyString, after. reflexivity.
    + destruct (IH H) as (before & after & ->).
      exists (String c before), after. reflexivity.
  - intros (before & after & ->). apply includes_later, includes_here.
Qed.

Lemma opt_includes_contains (o : option string) (sub : string) :
  opt_includes o sub = true <-> exists s, o = Some s /\ contains s sub.
Proof.
  destruct o as [s|]; simpl.
  - rewrite includes_contains. split.
    + intros H. exists s. split; [reflexivity | exact H].
    + intros (s' & [= <-] & H). exact H.
  - split; [discriminate | intros (s & [=] & _)].
Qed.

Lemma has_tool_calls_carries (m : Message.t) :
  has_tool_calls m = true <-> carries_tool_invocation m.
Proof.
  unfold has_tool_calls, carries_tool_invocation.
  destruct (Message.tool_calls m) as [[|c cs]|]; simpl.
  - split; [discriminate | intros (c & cs & [=])].
  - split; [intros _; exists c, cs; reflexivity | reflexivity].
  - split; [discriminate | intros (c & cs & [=])].
Qed.

Lemma is_tool_response_marker (m : Message.t) :
  is_tool_response m = true <-> has_marker_name m.
Proof.
  unfold is_tool_response, has_marker_name.
  rewrite orb_true_iff, !opt_includes_contains. split.
  - intros [(n & Hn & H)|(n & Hn & H)]; exists n; tauto.
  - intros (n & Hn & [H|H]); [left | right]; exists n; tauto.
Qed.

Lemma is_ai_assistant (m : Message.t) :
  is_ai m = true <-> assistant_authored m.
Proof.
  unfold is_ai, assistant_authored.
  rewrite orb_true_iff, opt_includes_contains.
  destruct (Message._getType m) as [ty|].
  - rewrite String.eqb_eq. split.
    + intros [H|H]; [left; exact H | right; rewrite H; reflexivity].
    + intros [H|[= H]]; [left; exact H | right; exact H].
  - split.
    + intros [H|H]; [left; exact H | discriminate].
    + intros [H|[=]]. left; exact H.
Qed.

Section Scans.

Variable f : Message.t -> bool.
Variable P : Message.t -> Prop.
Hypothesis reflects : forall m, f m = true <-> P m.

Lemma find_first_with (l : list Message.t) (m : Message.t) :
  List.find f l = Some m <-> first_with P l m.
Proof.
  induction l as [|x l IH]; simpl.
  - split; [discriminate|]. intros (before & after & H & _).
    destruct before; discriminate.
  - destruct (f x) eqn:Hx.
    + split.
      * intros [= <-]. exists [], l. split; [reflexivity|].
        split; [apply reflects, Hx | intros y []].
      * intros (before & after & H & _ & Hnone).
        destruct before as [|y before]; simpl in H; injection H as -> ->.
        -- reflexivity.
        -- exfalso. apply (Hnone y); [left; reflexivity | apply reflects, Hx].
    + rewrite IH. split.
      * intros (before & after & -> & Hm & Hnone).
        exists (x :: before), after. split; [reflexivity|]. split; [exact Hm|].
        intros y [<-|Hy]; [|apply Hnone, Hy].
        intros Hp. apply reflects in Hp. congruence.
      * intros (before & after & H & Hm & Hnone).
        destruct before as [|y before]; simpl in H; injection H as -> ->.
        -- apply reflects in Hm. congruence.
        -- exists before, after. split; [reflexivity|]. split; [exact Hm|].
           intros z Hz. apply Hnone. right. exact Hz.
Qed.

Lemma find_none_with (l : list Message.t) :
  List.find f l = None <-> forall m, In m l -> ~ P m.
Proof.
  split.
  - intros H m Hin Hp. apply reflects in Hp.
    rewrite (find_none _ _ H m Hin) in Hp. discriminate.
  - intros H. destruct (List.find f l) as [m|] eqn:Hf; [|reflexivity].
    destruct (find_some _ _ Hf) as [Hin Hm]. destruct (H m Hin). apply reflects, Hm.
Qed.

Lemma find_last_with (l : list Message.t) (m : Message.t) :
  last_with P l m -> List.find f (rev l) = Some m.
Proof.
  intros (before & after & -> & Hm & Hnone). apply find_first_with.
  exists (rev after), (rev before). split.
  - rewrite rev_app_distr. simpl. rewrite <- app_assoc. reflexivity.
  - split; [exact Hm|]. intros x Hx. apply Hnone, in_rev, Hx.
Qed.

Lemma existsb_with (l : list Message.t) :
  existsb f l = true <-> exists m, In m l /\ P m.
Proof.
  rewrite existsb_exists. split; intros (m & Hin & H); exists m;
    (split; [exact Hin | apply reflects, H]).
Qed.

End Scans.

Lemma tool_signal_evidence (m : Message.t) :
  tool_signal m = true <-> carries_tool_invocation m \/ has_marker_name m.
Proof.
  unfold tool_signal.
  rewrite orb_true_iff, has_tool_calls_carries, is_tool_response_marker. tauto.
Qed.

Lemma marker_not_empty (n : string) :
  contains n "extract" \/ contains n "MovieRecommendation" -> n <> EmptyString.
Proof.
  intros [(b & a & H)|(b & a & H)] ->; destruct b; discriminate.
Qed.

(** The name the code resolves is the one the window names. *)
Lemma resolved_name_names_tool (window : list Message.t) :
  names_tool window (resolved_tool_name window).
Proof.
  unfold resolved_tool_name.
  pose proof (find_first_with _ _ has_tool_calls_carries window) as Hcall.
  pose proof (find_first_with _ _ is_tool_response_marker window) as Hresp.
  pose proof (find_none_with _ _ is_tool_response_marker window) as Hnoresp.
  assert (Hmarker :
    forall n, or_literal (name_of (elem_of (List.find is_tool_response window))) "unknown" = n ->
      (forall n', ~ invoked_tool window n') -> names_tool window n).
  { intros n <- Hno.
    destruct (List.find is_tool_response window) as [r|] eqn:Hr; simpl.
    - pose proof (proj1 (Hresp r) eq_refl) as Hfirst.
      destruct Hfirst as (b & a & Hw & (n & Hn & Hmark) & Hnone).
      rewrite Hn. simpl.
      pose proof (marker_not_empty n Hmark) as Hne.
      destruct n as [|ch n]; [congruence|]. simpl.
      apply names_marker; [exact Hno|].
      exists r. split; [|exact Hn].
      exists b, a. split; [exact Hw|]. split; [|exact Hnone].
      exists (String ch n). split; [exact Hn | exact Hmark].
    - apply names_unknown; [exact Hno|].
      intros n' (m & (b & a & Hw & Hm & _) & _).
      apply (proj1 Hnoresp eq_refl m); [|exact Hm].
      rewrite Hw. apply in_or_app. right. left. reflexivity. }
  destruct (List.find has_tool_calls window) as [m|] eqn:Hm; simpl.
  - pose proof (proj1 (Hcall m) eq_refl) as Hfirst.
    assert (Hsame : forall m', first_with carries_tool_invocation window m' -> m' = m).
    { intros m' H'. apply Hcall in H'. congruence. }
    destruct Hfirst as (b & a & Hw & (c & cs & Hc) & Hnone).
    rewrite Hc.
    destruct (call_name c) as [[|ch n]|] eqn:Hn; simpl.
    + apply Hmarker; [reflexivity|].
      intros n' (m' & c' & cs' & H' & Hc' & Hn' & Hne).
      apply Hsame in H'. subst m'. congruence.
    + apply names_invoked. exists m, c, cs.
      split; [|split; [exact Hc | split; [exact Hn | discriminate]]].
      exists b, a. split; [exact Hw|]. split; [|exact Hnone]. exists c, cs. exact Hc.
    + apply Hmarker; [reflexivity|].
      intros n' (m' & c' & cs' & H' & Hc' & Hn' & Hne).
      apply Hsame in H'. subst m'. congruence.
  - apply Hmarker; [reflexivity|].
    intros n' (m' & c' & cs' & H' & _). apply Hcall in H'. discriminate.
Qed.

Lemma details_contain_name (toolName : string) :
  contains
    ("Tool calling strategy detected (tool: " ++ quote ++ toolName ++ quote ++ ")")
    toolName.
Proof.
  exists ("Tool calling strategy detected (tool: " ++ quote)%string, (quote ++ ")")%string.
  rewrite append_associative. reflexivity.
Qed.

(** C2 fails as stated: the first message of the trace is an assistant
    message with a tool invocation, and the result is UNKNOWN, because
    [messages.slice(-5)] drops that message before the scan. *)
Lemma C2_counterexample :
  Exists (fun m => is_ai m = true /\ has_tool_calls m = true) early_tool_call_trace
  /\ fst (analyzeStructuredOutputStrategy 0 Js.Undefined
            (trace_world early_tool_call_trace))
     = Ok (unknown Js.Undefined).
Proof.
  split.
  - apply Exists_cons_hd. split; reflexivity.
  - vm_compute. reflexivity.
Qed.

(** C2, amended: for every trace of message objects that has, among its last
    five messages, an assistant message with at least one tool invocation,
    the result is TOOL_CALLING whatever the contents of the messages, and
    structuredOutputWorked tells whether structuredResponse is defined. *)
Theorem C2_tool_invocation_in_last_five
    (w : World) (a : Ref) (ms : list Message.t) (sr : Js.Value) :
  holds_trace w a ms ->
  Exists (fun m => is_ai m = true /\ has_tool_calls m = true) (last_five ms) ->
  exists r,
    fst (analyzeStructuredOutputStrategy a sr w) = Ok r
    /\ strategy r = TOOL_CALLING
    /\ structuredOutputWorked r = Js.is_defined sr.
Proof.
  intros Hw Hex.
  assert (Hsig : existsb tool_signal (last_five ms) = true).
  { apply List.Exists_exists in Hex as (m & Hin & _ & Hm).
    apply existsb_exists. exists m. split; [exact Hin|].
    unfold tool_signal. rewrite Hm. reflexivity. }
  unfold analyzeStructuredOutputStrategy.
  rewrite (returns_objects _ w a ms sr Hw), (determine_tool_calling _ _ _ _ Hsig).
  eexists. repeat split.
Qed.

(** C2, amended, on a two-message trace that ends with the tool call. *)
Lemma C2_witness :
  exists r,
    fst (analyzeStructuredOutputStrategy 0 Js.Undefined
           (trace_world
              [HumanMessage "Search for recent AI news and summarize";
               AIMessage (Js.Str EmptyString) (Some [mkToolCall (Some "tavily_search")])]))
    = Ok r
    /\ strategy r = TOOL_CALLING
    /\ structuredOutputWorked r = Js.is_defined Js.Undefined.
Proof.
  apply (C2_tool_invocation_in_last_five
           (trace_world
              [HumanMessage "Search for recent AI news and summarize";
               AIMessage (Js.Str EmptyString) (Some [mkToolCall (Some "tavily_search")])])
           0
           [HumanMessage "Search for recent AI news and summarize";
            AIMessage (Js.Str EmptyString) (Some [mkToolCall (Some "tavily_search")])]
           Js.Undefined).
  - reflexivity.
  - apply Exists_cons_tl, Exists_cons_hd. split; reflexivity.
Defined.

(** C3: on a trace of message objects the detection looks at the last five
    messages only (all of them when there are fewer).  The result is
    TOOL_CALLING exactly when one of these carries a tool invocation or has a
    name containing "extract" or "MovieRecommendation"; an assistant message
    with an invocation and a tool result with such a name are instances.
    Then structuredOutputWorked is true exactly when structuredResponse is
    not undefined, whatever the assistant content is and even when it parses
    as JSON, and [details] is the fixed text around the tool the window
    names: the name of the first invocation of the first message with
    invocations when it is not empty, else the name of the first message with
    a marker name, else "unknown". *)
Theorem C3_tool_calling_detection
    (w : World) (a : Ref) (ms : list Message.t) (sr : Js.Value) :
  holds_trace w a ms ->
  exists r,
    fst (analyzeStructuredOutputStrategy a sr w) = Ok r
    /\ (strategy r = TOOL_CALLING
        <-> exists m, In m (last_five ms)
                      /\ (carries_tool_invocation m \/ has_marker_name m))
    /\ (strategy r = TOOL_CALLING ->
        (structuredOutputWorked r = true <-> sr <> Js.Undefined)
        /\ exists toolName,
             names_tool (last_five ms) toolName
             /\ details r
                = ("Tool calling strategy detected (tool: "
                   ++ quote ++ toolName ++ quote ++ ")")%string
             /\ contains (details r) toolName)
    /\ (forall m text v,
          strategy r = TOOL_CALLING ->
          last_with assistant_authored ms m ->
          Message.content m = Js.Str text ->
          JSON.parse text = Ok v ->
          parsedJson r = Some v)
    /\ (length ms <= 5 -> last_five ms = ms)
    /\ (forall older recent, ms = older ++ recent -> length recent = 5 ->
          last_five ms = recent).
Proof.
  intros Hw. unfold analyzeStructuredOutputStrategy.
  rewrite (returns_objects _ w a ms sr Hw).
  eexists. split; [reflexivity|].
  assert (Hwindow := conj (@last_five_short _ ms)
                       (fun older recent (E : ms = older ++ recent) =>
                          eq_ind_r (fun l => length recent = 5 -> last_five l = recent)
                            (last_five_app older recent) E)).
  pose proof (existsb_with _ _ tool_signal_evidence (last_five ms)) as Hev.
  destruct (existsb tool_signal (last_five ms)) eqn:Hsig.
  - rewrite (determine_tool_calling _ _ _ _ Hsig). cbn [strategy structuredOutputWorked details parsedJson].
    split; [split; [intros _; apply Hev; reflexivity | reflexivity]|].
    split.
    { intros _. split.
      - destruct sr; simpl; split; congruence.
      - exists (resolved_tool_name (last_five ms)).
        split; [apply resolved_name_names_tool|].
        split; [reflexivity | apply details_contain_name]. }
    split; [|exact Hwindow].
    intros m text v _ Hai Hc Hp.
    unfold last_ai_message.
    rewrite (find_last_with _ _ is_ai_assistant ms m Hai). simpl.
    rewrite Hc. simpl. rewrite Hp. reflexivity.
  - rewrite (determine_no_signal _ _ _ _ Hsig).
    assert (Hnot : strategy (determine EUndefined EUndefined
                               (content_of (elem_of (last_ai_message ms)))
                               (try_parse JSON.parse (content_of (elem_of (last_ai_message ms))))
                               sr) <> TOOL_CALLING)
      by apply no_signal_not_tool_calling.
    split.
    { split; [intros H; destruct (Hnot H)|].
      intros H. apply Hev in H. discriminate. }
    split; [intros H; destruct (Hnot H)|].
    split; [intros m text v H; destruct (Hnot H) | exact Hwindow].
Qed.

(** C3 on three traces: one whose only signal is a tool invocation, next to
    content that parses as JSON; one whose only signal is the name of a tool
    result; one with neither. *)
Lemma C3_witness :
  (exists r,
     fst (analyzeStructuredOutputStrategy 0 (Js.Obj []) (trace_world call_only_trace))
     = Ok r
     /\ strategy r = TOOL_CALLING
     /\ structuredOutputWorked r = true
     /\ details r = dq "Tool calling strategy detected (tool: 'tavily_search')"
     /\ exists toolName,
          names_tool (last_five call_only_trace) toolName
          /\ details r
             = ("Tool calling strategy detected (tool: "
                ++ quote ++ toolName ++ quote ++ ")")%string)
  /\ (exists r,
        fst (analyzeStructuredOutputStrategy 0 Js.Undefined
               (trace_world marker_only_trace))
        = Ok r
        /\ strategy r = TOOL_CALLING
        /\ structuredOutputWorked r = false
        /\ details r = dq "Tool calling strategy detected (tool: 'extract-1')"
        /\ exists toolName,
             names_tool (last_five marker_only_trace) toolName
             /\ details r
                = ("Tool calling strategy detected (tool: "
                   ++ quote ++ toolName ++ quote ++ ")")%string)
  /\ (exists r,
        fst (analyzeStructuredOutputStrategy 0 (Js.Obj []) (trace_world plain_trace))
        = Ok r
        /\ strategy r <> TOOL_CALLING).
Proof.
  split; [|split].
  - destruct (C3_tool_calling_detection (trace_world call_only_trace) 0
                call_only_trace (Js.Obj []) eq_refl)
      as (r & Hr & Hiff & Hthen & _).
    assert (Hs : strategy r = TOOL_CALLING).
    { apply Hiff. eexists. split; [right; left; reflexivity|].
      left. eexists. eexists. reflexivity. }
    destruct (Hthen Hs) as (Hworked & toolName & Hnames & Hdetails & _).
    exists r. split; [exact Hr|]. split; [exact Hs|].
    split; [apply Hworked; discriminate|].
    split; [|exists toolName; split; [exact Hnames | exact Hdetails]].
    vm_compute in Hr. injection Hr as <-. reflexivity.
  - destruct (C3_tool_calling_detection (trace_world marker_only_trace) 0
                marker_only_trace Js.Undefined eq_refl)
      as (r & Hr & Hiff & Hthen & _).
    assert (Hs : strategy r = TOOL_CALLING).
    { apply Hiff. eexists. split; [right; right; left; reflexivity|].
      right. eexists. split; [reflexivity|].
      left. exists EmptyString, "-1". reflexivity. }
    destruct (Hthen Hs) as (Hworked & toolName & Hnames & Hdetails & _).
    exists r. split; [exact Hr|]. split; [exact Hs|].
    split.
    { destruct (structuredOutputWorked r); [|reflexivity].
      destruct (proj1 Hworked eq_refl). reflexivity. }
    split; [|exists toolName; split; [exact Hnames | exact Hdetails]].
    vm_compute in Hr. injection Hr as <-. reflexivity.
  - destruct (C3_tool_calling_detection (trace_world plain_trace) 0
                plain_trace (Js.Obj []) eq_refl)
      as (r & Hr & Hiff & _).
    exists r. split; [exact Hr|].
    intros Hs. apply Hiff in Hs as (m & Hin & Hm).
    destruct Hin as [<-|[<-|[]]];
      destruct Hm as [(c & cs & H)|(n & H & _)]; discriminate.
Defined.

(** ** The report *)

Lemma truthy_has_keys (v : Js.Value) :
  Js.truthy v = true -> exists ks, Object.keys v = Ok ks.
Proof. destruct v; simpl; try discriminate; eauto. Qed.

Lemma run_log_schema_match (json : Js.Value) (schemaKeys : list string) (w : World) :
  (if Js.truthy json then log_schema_match json schemaKeys else ret tt) w
  = (Ok tt, mkWorld (arrays w) (console w ++ schema_lines json schemaKeys)).
Proof.
  unfold schema_lines. destruct (Js.truthy json) eqn:Ht.
  - destruct (truthy_has_keys json Ht) as [ks Hks].
    unfold log_schema_match, bind, lift, console_log. rewrite Hks. simpl.
    rewrite <- !app_assoc. reflexivity.
  - unfold ret. rewrite app_nil_r. destruct w; reflexivity.
Qed.

Lemma run_log_preview (lastAiMessage : Elem) (w : World) :
  log_preview lastAiMessage w
  = (Ok tt, mkWorld (arrays w) (console w ++ preview_lines lastAiMessage)).
Proof.
  unfold log_preview, preview_lines.
  destruct (content_of lastAiMessage) as [| |b|n|text|items|props];
    try (unfold ret; rewrite app_nil_r; destruct w; reflexivity).
  destruct (Js.truthy (Js.Str text)).
  - unfold bind, console_log. simpl. rewrite <- !app_assoc. reflexivity.
  - unfold ret. rewrite app_nil_r. destruct w; reflexivity.
Qed.

(** The second search for the last assistant message, on a fresh copy. *)
Lemma run_last_ai (w : World) (a : Ref) (l : list Elem)
    (k : Elem -> M unit) :
  arrays w !! a = Some l ->
  (let* copy := Array.spread a in
   let* reversed := Array.reverse copy in
   let* lastAiMessage := Array.find reversed (callback is_ai) in
   k lastAiMessage) w
  = match Array.first_match (callback is_ai) (rev l) with
    | Ok m => k m (mkWorld (arrays w ++ [rev l]) (console w))
    | Throw e => (Throw e, mkWorld (arrays w ++ [rev l]) (console w))
    end.
Proof.
  intros Ha.
  unfold bind at 1. unfold Array.spread, bind at 1, Array.read at 1.
  rewrite Ha. unfold Array.alloc.
  unfold bind at 1. unfold Array.reverse, bind at 1, Array.read at 1. simpl arrays.
  rewrite lookup_fresh. unfold bind at 1, Array.write, ret at 1. simpl arrays. simpl console.
  replace (<[length (arrays w) := rev l]> (arrays w ++ [l])) with (arrays w ++ [rev l]).
  2:{ rewrite insert_app_r_alt by lia. rewrite Nat.sub_diag. reflexivity. }
  unfold bind at 1. unfold Array.find at 1, bind at 1, Array.read at 1. simpl arrays.
  rewrite lookup_fresh. unfold lift.
  destruct (Array.first_match (callback is_ai) (rev l)); reflexivity.
Qed.

Section Report.

Variable parse : string -> Result Js.Value.

Lemma allocated_objects (ms : list Message.t) :
  allocated (map EObject ms)
  = [map EObject (last_five ms); map EObject (rev ms)].
Proof.
  unfold allocated.
  rewrite last_five_objects, !first_match_objects, map_rev. reflexivity.
Qed.

(** A call of [logStrategyAnalysis] on a trace of message objects returns,
    appends its report to the console and leaves three new arrays. *)
Lemma run_log (w : World) (a : Ref) (ms : list Message.t) (sr : Js.Value)
    (schemaKeys : list string) (r : StrategyAnalysis) :
  holds_trace w a ms ->
  fst (analyzeStructuredOutputStrategyWith parse a sr w) = Ok r ->
  logStrategyAnalysisWith parse a sr schemaKeys w
  = (Ok tt,
     mkWorld
       (arrays w ++ [map EObject (last_five ms); map EObject (rev ms);
                     map EObject (rev ms)])
       (console w ++ report r sr schemaKeys (elem_of (last_ai_message ms)))).
Proof.
  intros Hw Hr. unfold logStrategyAnalysisWith.
  unfold bind at 1.
  rewrite (run_analyze parse w a _ sr Hw) in *. simpl in Hr. rewrite Hr.
  rewrite allocated_objects.
  do 6 (unfold bind at 1; unfold console_log at 1; simpl arrays; simpl console).
  unfold bind at 1.
  assert (Hworked : forall w0 : World,
    (if structuredOutputWorked r
     then console_log "✅ Structured output WORKED"
     else console_log "❌ Structured output FAILED") w0
    = (Ok tt, mkWorld (arrays w0)
                (console w0 ++ [if structuredOutputWorked r
                                then "✅ Structured output WORKED"
                                else "❌ Structured output FAILED"]))).
  { intros w0. destruct (structuredOutputWorked r); reflexivity. }
  rewrite Hworked. simpl arrays. simpl console.
  unfold bind at 1. rewrite run_log_schema_match. simpl arrays. simpl console.
  rewrite run_last_ai with (l := map EObject ms).
  2:{ simpl. apply lookup_kept. exact Hw. }
  rewrite <- map_rev, first_match_objects.
  unfold bind at 1. rewrite run_log_preview. simpl arrays. simpl console.
  unfold console_log. simpl arrays. simpl console.
  unfold report, last_ai_message.
  rewrite <- !app_assoc. simpl. reflexivity.
Qed.

End Report.

(** ** Key comparison *)

Lemma array_includes_In (xs : list string) (k : string) :
  array_includes xs k = true <-> In k xs.
Proof.
  unfold array_includes. rewrite List.existsb_exists. split.
  - intros (x & Hin & Heq). apply String.eqb_eq in Heq. subst. exact Hin.
  - intros Hin. exists k. split; [exact Hin | apply String.eqb_refl].
Qed.

Lemma has_expected_keys_spec (schemaKeys jsonKeys : list string) :
  has_expected_keys schemaKeys jsonKeys = true
  <-> forall k, In k schemaKeys -> In k jsonKeys.
Proof.
  unfold has_expected_keys. rewrite List.forallb_forall.
  split; intros H k Hk; apply array_includes_In, H, Hk.
Qed.

Lemma has_expected_keys_perm (s s' j j' : list string) :
  Permutation s s' -> Permutation j j' ->
  has_expected_keys s j = has_expected_keys s' j'.
Proof.
  intros Hs Hj. apply eq_true_iff_eq. rewrite !has_expected_keys_spec.
  split; intros H k Hk.
  - apply (Permutation_in _ Hj), H. apply (Permutation_in _ (Permutation_sym Hs)), Hk.
  - apply (Permutation_in _ (Permutation_sym Hj)), H. apply (Permutation_in _ Hs), Hk.
Qed.

Lemma insert_index_In (n : N) (k : string) (l : list (N * string)) (x : N * string) :
  In x (Object.insert_index n k l) <-> x = (n, k) \/ In x l.
Proof.
  induction l as [|[n' k'] l IH]; simpl.
  - intuition.
  - destruct (n <=? n')%N; simpl; [intuition|]. rewrite IH. intuition.
Qed.

Lemma indexed_keys_In (ks : list string) (k : string) :
  In k (map snd
          (fold_right
             (fun k acc =>
                match Object.array_index k with
                | Some n => Object.insert_index n k acc
                | None => acc
                end) [] ks))
  <-> In k ks /\ Object.array_index k <> None.
Proof.
  induction ks as [|k0 ks IH]; simpl; [tauto|].
  destruct (Object.array_index k0) as [n|] eqn:Hk0.
  - rewrite in_map_iff. split.
    + intros ([n' k'] & <- & Hin). apply insert_index_In in Hin as [[= -> ->]|Hin]; simpl.
      * split; [left; reflexivity | congruence].
      * assert (H : In k' (map snd (fold_right
             (fun k acc =>
                match Object.array_index k with
                | Some n => Object.insert_index n k acc
                | None => acc
                end) [] ks))) by (apply in_map_iff; exists (n', k'); tauto).
        apply IH in H. tauto.
    + intros [[->|Hin] Hidx].
      * exists (n, k). split; [reflexivity|]. apply insert_index_In. left. reflexivity.
      * pose proof (proj2 IH (conj Hin Hidx)) as Hin'.
        apply in_map_iff in Hin' as (x & <- & Hx).
        exists x. split; [reflexivity|]. apply insert_index_In. right. exact Hx.
  - rewrite IH. split.
    + intros [Hin Hidx]. tauto.
    + intros [[->|Hin] Hidx]; [congruence | tauto].
Qed.

(** The keys of an object are the keys of its properties. *)
Lemma own_keys_In (props : list (string * Js.Value)) (k : string) :
  In k (Object.own_keys props) <-> exists value, In (k, value) props.
Proof.
  unfold Object.own_keys. rewrite in_app_iff, indexed_keys_In, filter_In.
  assert (Hfst : In k (map fst props) <-> exists value, In (k, value) props).
  { rewrite in_map_iff. split.
    - intros ([k' value] & <- & Hin). exists value. exact Hin.
    - intros (value & Hin). exists (k, value). split; [reflexivity | exact Hin]. }
  rewrite <- Hfst.
  destruct (Object.array_index k); intuition congruence.
Qed.

Lemma schema_match_yes (schemaKeys jsonKeys : list string) :
  (forall k, In k schemaKeys -> In k jsonKeys) ->
  schema_match_line (has_expected_keys schemaKeys jsonKeys) = "Schema match: ✅ YES".
Proof.
  intros H. apply has_expected_keys_spec in H. rewrite H. reflexivity.
Qed.

Lemma schema_match_no (schemaKeys jsonKeys : list string) :
  (exists k, In k schemaKeys /\ ~ In k jsonKeys) ->
  schema_match_line (has_expected_keys schemaKeys jsonKeys) = "Schema match: ❌ NO".
Proof.
  intros (k & Hk & Hnot).
  destruct (has_expected_keys schemaKeys jsonKeys) eqn:H; [|reflexivity].
  destruct Hnot. exact (proj1 (has_expected_keys_spec _ _) H k Hk).
Qed.

(** C4 fails as stated: in the report of the example no line lists the
    missing key.  The key genre is mentioned once, in the line of the
    expected keys, next to title and year; the code computes the verdict of
    the comparison and prints the two key lists, never their difference. *)
Lemma C4_counterexample :
  existsb (lists_missing_keys ["title"; "year"; "genre"] ["title"; "year"])
    title_year_report = false
  /\ List.filter (fun line => Js.includes line "genre") title_year_report
     = ["Expected schema keys: [title, year, genre]"].
Proof. split; vm_compute; reflexivity. Qed.

(** C4, amended: for a classification whose parsedJson is the object with
    keys title and year, and expected keys title, year and genre, the report
    says that the schema match is NO and prints the parsed keys and the
    expected keys (genre among them).  In general, when parsedJson is truthy
    the lines the report appends hold the parsed keys, the expected keys and
    the verdict: YES when every expected key is one of [Object.keys] of the
    recovered JSON, NO when one is not.  The keys of an object are the keys
    of its properties, array indices first; an array has its indices as
    keys, a string one key per UTF-16 code unit, and a key written with
    escapes is the string it denotes.  The verdict does not
    depend on the order of either list and compares keys as exact,
    case-sensitive strings. *)
Theorem C4_key_match_report :
  (fst (analyzeStructuredOutputStrategy 0 Js.Undefined (trace_world title_year_trace))
   = Ok (provider_json
           (Js.Obj [("title", Js.Str "x"); ("year", Js.Num (Js.mkNumber false 1 0))]))
   /\ In "Schema match: ❌ NO" title_year_report
   /\ In (newline ++ "Parsed JSON keys: [title, year]")%string title_year_report
   /\ In "Expected schema keys: [title, year, genre]" title_year_report)
  /\ (forall (w : World) (a : Ref) (ms : list Message.t) (sr : Js.Value)
             (schemaKeys : list string) (r : StrategyAnalysis) (v : Js.Value)
             (jsonKeys : list string),
        holds_trace w a ms ->
        fst (analyzeStructuredOutputStrategy a sr w) = Ok r ->
        parsedJson r = Some v ->
        Js.truthy v = true ->
        Object.keys v = Ok jsonKeys ->
        fst (logStrategyAnalysis a sr schemaKeys w) = Ok tt
        /\ exists lines,
             console (snd (logStrategyAnalysis a sr schemaKeys w))
             = console w ++ lines
             /\ In (newline ++ "Parsed JSON keys: [" ++ Js.join ", " jsonKeys ++ "]")%string
                   lines
             /\ In ("Expected schema keys: [" ++ Js.join ", " schemaKeys ++ "]")%string
                   lines
             /\ In (schema_match_line (has_expected_keys schemaKeys jsonKeys)) lines
             /\ ((forall k, In k schemaKeys -> In k jsonKeys) ->
                 In "Schema match: ✅ YES" lines)
             /\ ((exists k, In k schemaKeys /\ ~ In k jsonKeys) ->
                 In "Schema match: ❌ NO" lines))
  /\ (forall (props : list (string * Js.Value)) (jsonKeys : list string),
        Object.keys (Js.Obj props) = Ok jsonKeys ->
        forall k, In k jsonKeys <-> exists value, In (k, value) props)
  /\ (Object.keys (Js.Str "é") = Ok ["0"]
      /\ Object.keys (Js.Arr [Js.Null; Js.Bool true]) = Ok ["0"; "1"]
      /\ Object.keys (Js.Obj [("b", Js.Null); ("1", Js.Null);
                              ("a", Js.Null); ("0", Js.Null)])
         = Ok ["0"; "1"; "b"; "a"]
      /\ In "Schema match: ❌ NO"
            (console (snd (logStrategyAnalysis 0 Js.Undefined ["1"]
                             (trace_world accent_trace)))))
  /\ (JSON.parse (dq "{'\ud83d\ude00':1}")
      = Ok (Js.Obj [("😀", Js.Num (Js.mkNumber false 1 0))])
      /\ In "Schema match: ✅ YES"
            (console (snd (logStrategyAnalysis 0 Js.Undefined ["😀"]
                             (trace_world emoji_trace)))))
  /\ (forall schemaKeys jsonKeys : list string,
        has_expected_keys schemaKeys jsonKeys = true
        <-> forall k, In k schemaKeys -> In k jsonKeys)
  /\ (forall s s' j j' : list string,
        Permutation s s' -> Permutation j j' ->
        has_expected_keys s j = has_expected_keys s' j')
  /\ has_expected_keys ["Title"] ["title"] = false
  /\ has_expected_keys ["title"; "year"; "genre"] ["title"; "year"] = false.
Proof.
  split.
  { repeat split; vm_compute; auto 20. }
  split.
  { intros w a ms sr schemaKeys r v jsonKeys Hw Hr Hpj Ht Hk.
    unfold logStrategyAnalysis.
    rewrite (run_log JSON.parse w a ms sr schemaKeys r Hw Hr). cbn [fst snd console].
    split; [reflexivity|].
    eexists. split; [reflexivity|].
    unfold report. rewrite Hpj. unfold schema_lines. rewrite Ht, Hk.
    assert (Hline : In (schema_match_line (has_expected_keys schemaKeys jsonKeys))
                      ([ (newline ++ rule)%string; "📊 STRATEGY ANALYSIS"; rule;
                         ("Strategy Detected: " ++ strategy_text (strategy r))%string;
                         ("Details: " ++ details r)%string;
                         ("structuredResponse defined: "
                          ++ bool_text (Js.is_defined sr))%string;
                         if structuredOutputWorked r
                         then "✅ Structured output WORKED"
                         else "❌ Structured output FAILED" ]
                       ++ [ (newline ++ "Parsed JSON keys: ["
                             ++ Js.join ", " jsonKeys ++ "]")%string;
                            ("Expected schema keys: ["
                             ++ Js.join ", " schemaKeys ++ "]")%string;
                            schema_match_line (has_expected_keys schemaKeys jsonKeys) ]
                       ++ preview_lines (elem_of (last_ai_message ms)) ++ [rule])).
    { apply in_or_app; right; apply in_or_app; left; simpl; auto. }
    split; [apply in_or_app; right; apply in_or_app; left; simpl; auto|].
    split; [apply in_or_app; right; apply in_or_app; left; simpl; auto|].
    split; [exact Hline|].
    split.
    - intros H. rewrite <- (schema_match_yes schemaKeys jsonKeys H). exact Hline.
    - intros H. rewrite <- (schema_match_no schemaKeys jsonKeys H). exact Hline. }
  split.
  { intros props jsonKeys [= <-] k. apply own_keys_In. }
  split.
  { split; [reflexivity|]. split; [reflexivity|]. split; [reflexivity|].
    vm_compute. auto 20. }
  split.
  { split; [reflexivity|]. vm_compute. auto 20. }
  split; [exact has_expected_keys_spec|].
  split; [exact has_expected_keys_perm|].
  split; reflexivity.
Qed.

(** C4, amended, on the trace of the example: genre is expected and is not a
    key of the recovered JSON, and the report says NO. *)
Lemma C4_witness :
  holds_trace (trace_world title_year_trace) 0 title_year_trace
  /\ exists lines,
       title_year_report = [] ++ lines
       /\ In "Schema match: ❌ NO" lines
       /\ In (newline ++ "Parsed JSON keys: [title, year]")%string lines
       /\ In "Expected schema keys: [title, year, genre]" lines.
Proof.
  split; [reflexivity|].
  destruct C4_key_match_report as (_ & Hreport & _).
  destruct (Hreport (trace_world title_year_trace) 0 title_year_trace Js.Undefined
              ["title"; "year"; "genre"]
              (provider_json
                 (Js.Obj [("title", Js.Str "x");
                          ("year", Js.Num (Js.mkNumber false 1 0))]))
              (Js.Obj [("title", Js.Str "x");
                       ("year", Js.Num (Js.mkNumber false 1 0))])
              ["title"; "year"]
              eq_refl eq_refl eq_refl eq_refl eq_refl)
    as (_ & lines & Hlines & Hparsed & Hexpected & _ & _ & Hno).
  exists lines. split; [exact Hlines|].
  split; [|split; [exact Hparsed | exact Hexpected]].
  apply Hno. exists "genre". split; [right; right; left; reflexivity|].
  intros [H|[H|[]]]; discriminate.
Defined.

(** ** Provider text that is not JSON (rule 3) *)

(** C5: on a trace of message objects where the detection finds no tool
    calling in the last five messages, and the most recent assistant message
    has a non-empty text content on which [JSON.parse] throws, the result is
    PROVIDER_NO_JSON with structuredOutputWorked false, whatever
    structuredResponse is. *)
Theorem C5_unparseable_text_is_provider_no_json
    (w : World) (a : Ref) (ms : list Message.t) (sr : Js.Value)
    (m : Message.t) (text : string) (e : Error) :
  holds_trace w a ms ->
  existsb tool_signal (last_five ms) = false ->
  last_ai_message ms = Some m ->
  Message.content m = Js.Str text ->
  text <> EmptyString ->
  JSON.parse text = Throw e ->
  fst (analyzeStructuredOutputStrategy a sr w)
  = Ok (mkAnalysis PROVIDER_NO_JSON false
          "Provider strategy attempted but response is NOT JSON (plain text/markdown)"
          None).
Proof.
  intros Hw Hsig Hai Hc Hne Hp. unfold analyzeStructuredOutputStrategy.
  rewrite (returns_objects _ w a ms sr Hw), (determine_no_signal _ _ _ _ Hsig), Hai.
  simpl. rewrite Hc. simpl. rewrite Hp. unfold determine. simpl.
  rewrite (nonempty_length text Hne). reflexivity.
Qed.

(** C5 on an answer in prose, with a structuredResponse that is defined. *)
Lemma C5_witness :
  fst (analyzeStructuredOutputStrategy 0 (Js.Obj [("foo", Js.Num (Js.mkNumber false 1 0))])
         (trace_world [HumanMessage "Recommend a classic sci-fi movie from the 1980s";
                       AIMessage (Js.Str "Here is my answer in prose.") None]))
  = Ok provider_no_json.
Proof.
  apply (C5_unparseable_text_is_provider_no_json
           (trace_world [HumanMessage "Recommend a classic sci-fi movie from the 1980s";
                         AIMessage (Js.Str "Here is my answer in prose.") None])
           0
           [HumanMessage "Recommend a classic sci-fi movie from the 1980s";
            AIMessage (Js.Str "Here is my answer in prose.") None]
           (Js.Obj [("foo", Js.Num (Js.mkNumber false 1 0))])
           (AIMessage (Js.Str "Here is my answer in prose.") None)
           "Here is my answer in prose."
           SyntaxError).
  - reflexivity.
  - reflexivity.
  - reflexivity.
  - reflexivity.
  - discriminate.
  - vm_compute. reflexivity.
Defined.

(** ** Nothing to go on (rule 4) *)

(** C6 fails as stated: this trace has no assistant message, so no assistant
    content, and no message with a tool invocation, and the result is
    TOOL_CALLING, because the name of the user message contains "extract". *)
Lemma C6_counterexample :
  last_ai_message named_user_trace = None
  /\ existsb has_tool_calls named_user_trace = false
  /\ fst (analyzeStructuredOutputStrategy 0 Js.Undefined
            (trace_world named_user_trace))
     = Ok (mkAnalysis TOOL_CALLING false (tool_calling_details "data-extractor")
             (Some Js.Undefined)).
Proof. repeat split; vm_compute; reflexivity. Qed.

(** C6, amended: for an empty trace, and for every trace of message objects
    where the last five messages hold neither a tool invocation nor a
    message name containing "extract" or "MovieRecommendation", and where
    there is no
    assistant message or the content of the most recent one is undefined or
    the empty string, the result is UNKNOWN and structuredOutputWorked tells
    whether structuredResponse is defined; with the empty trace and
    structuredResponse the object with foo set to 1 it is true. *)
Theorem C6_no_content_is_unknown :
  (forall (w : World) (a : Ref) (sr : Js.Value),
      arrays w !! a = Some [] ->
      fst (analyzeStructuredOutputStrategy a sr w)
      = Ok (mkAnalysis UNKNOWN (Js.is_defined sr) "Could not determine strategy" None))
  /\ (forall (w : World) (a : Ref) (ms : list Message.t) (sr : Js.Value),
        holds_trace w a ms ->
        existsb tool_signal (last_five ms) = false ->
        (last_ai_message ms = None
         \/ exists m, last_ai_message ms = Some m
                      /\ (Message.content m = Js.Undefined
                          \/ Message.content m = Js.Str EmptyString)) ->
        fst (analyzeStructuredOutputStrategy a sr w)
        = Ok (mkAnalysis UNKNOWN (Js.is_defined sr) "Could not determine strategy" None))
  /\ fst (analyzeStructuredOutputStrategy 0
            (Js.Obj [("foo", Js.Num (Js.mkNumber false 1 0))]) (world_of []))
     = Ok (mkAnalysis UNKNOWN true "Could not determine strategy" None).
Proof.
  split.
  { intros w a sr Ha. unfold analyzeStructuredOutputStrategy.
    rewrite (run_analyze JSON.parse w a [] sr Ha). reflexivity. }
  split; [|reflexivity].
  intros w a ms sr Hw Hsig Hcontent. unfold analyzeStructuredOutputStrategy.
  rewrite (returns_objects _ w a ms sr Hw), (determine_no_signal _ _ _ _ Hsig).
  destruct Hcontent as [Hnone | (m & Hai & [Hc | Hc])].
  - rewrite Hnone. reflexivity.
  - rewrite Hai. simpl. rewrite Hc. reflexivity.
  - rewrite Hai. simpl. rewrite Hc. reflexivity.
Qed.

(** C6, amended, on a trace whose assistant message has empty content. *)
Lemma C6_witness :
  fst (analyzeStructuredOutputStrategy 0 Js.Null
         (trace_world [HumanMessage "Recommend a classic sci-fi movie from the 1980s";
                       AIMessage (Js.Str EmptyString) None]))
  = Ok (unknown Js.Null).
Proof.
  destruct C6_no_content_is_unknown as (_ & Hgeneral & _).
  apply (Hgeneral
           (trace_world [HumanMessage "Recommend a classic sci-fi movie from the 1980s";
                         AIMessage (Js.Str EmptyString) None])
           0
           [HumanMessage "Recommend a classic sci-fi movie from the 1980s";
            AIMessage (Js.Str EmptyString) None]
           Js.Null).
  - reflexivity.
  - reflexivity.
  - right. exists (AIMessage (Js.Str EmptyString) None).
    split; [reflexivity | right; reflexivity].
Defined.

(** C10: on a trace of message objects where the detection finds no tool
    calling and the most recent assistant message has a content that is not
    a string (content blocks, say), the result is UNKNOWN,
    structuredOutputWorked tells whether structuredResponse is defined, and
    the returned object has no parsedJson.  The parser is not consulted: the
    result is the same for every function put in the place of [JSON.parse]. *)
Theorem C10_non_text_content_is_unknown
    (parse : string -> Result Js.Value)
    (w : World) (a : Ref) (ms : list Message.t) (sr : Js.Value) (m : Message.t) :
  holds_trace w a ms ->
  existsb tool_signal (last_five ms) = false ->
  last_ai_message ms = Some m ->
  Js.is_string (Message.content m) = false ->
  fst (analyzeStructuredOutputStrategyWith parse a sr w)
  = Ok (mkAnalysis UNKNOWN (Js.is_defined sr) "Could not determine strategy" None)
  /\ fst (analyzeStructuredOutputStrategy a sr w)
     = Ok (mkAnalysis UNKNOWN (Js.is_defined sr) "Could not determine strategy" None).
Proof.
  intros Hw Hsig Hai Hc.
  assert (H : forall p, fst (analyzeStructuredOutputStrategyWith p a sr w)
                        = Ok (unknown sr)).
  { intros p.
    rewrite (returns_objects p w a ms sr Hw), (determine_no_signal _ _ _ _ Hsig), Hai.
    simpl. destruct (Message.content m); try discriminate; reflexivity. }
  split; apply H.
Qed.

(** C10 on an assistant message whose content is a list of content blocks. *)
Lemma C10_witness :
  fst (analyzeStructuredOutputStrategy 0 Js.Undefined
         (trace_world
            [AIMessage
               (Js.Arr [Js.Obj [("type", Js.Str "text"); ("text", Js.Str "{}")]])
               None]))
  = Ok (unknown Js.Undefined).
Proof.
  apply (C10_non_text_content_is_unknown JSON.parse
           (trace_world
              [AIMessage
                 (Js.Arr [Js.Obj [("type", Js.Str "text"); ("text", Js.Str "{}")]])
                 None])
           0
           [AIMessage
              (Js.Arr [Js.Obj [("type", Js.Str "text"); ("text", Js.Str "{}")]])
              None]
           Js.Undefined
           (AIMessage
              (Js.Arr [Js.Obj [("type", Js.Str "text"); ("text", Js.Str "{}")]])
              None));
    reflexivity.
Defined.

(** ** Totality *)

Lemma run_unallocated (parse : string -> Result Js.Value)
    (w : World) (a : Ref) (sr : Js.Value) :
  arrays w !! a = None ->
  analyzeStructuredOutputStrategyWith parse a sr w = (Throw TypeError, w).
Proof.
  intros Ha. unfold analyzeStructuredOutputStrategyWith.
  unfold bind at 1. unfold Array.slice, bind at 1, Array.read. rewrite Ha. reflexivity.
Qed.

(** C7 fails as stated: on the array that holds null (or undefined) the
    first callback reads [m.tool_calls] of null and the call ends with a
    TypeError; likewise when the null follows well-formed messages. *)
Lemma C7_counterexample :
  fst (analyzeStructuredOutputStrategy 0 Js.Undefined (world_of [ENull]))
  = Throw TypeError
  /\ fst (analyzeStructuredOutputStrategy 0 Js.Undefined (world_of [EUndefined]))
     = Throw TypeError
  /\ fst (analyzeStructuredOutputStrategy 0 Js.Undefined
            (world_of [EObject (AIMessage (Js.Str "{}") None); ENull]))
     = Throw TypeError.
Proof. repeat split. Qed.

(** C7, amended: on every trace of message objects, the empty one included,
    and for every structuredResponse, the call returns a classification.  An
    exception of the parser never leaves the function, whatever the parser
    throws: when parsing the content of the most recent assistant message
    throws, the result is not PROVIDER_JSON, and with no tool calling
    detected it is PROVIDER_NO_JSON for a non-empty text and UNKNOWN for the
    empty one. *)
Theorem C7_returns_on_message_objects
    (parse : string -> Result Js.Value)
    (w : World) (a : Ref) (ms : list Message.t) (sr : Js.Value) :
  holds_trace w a ms ->
  exists r,
    fst (analyzeStructuredOutputStrategyWith parse a sr w) = Ok r
    /\ forall m text e,
         last_ai_message ms = Some m ->
         Message.content m = Js.Str text ->
         parse text = Throw e ->
         strategy r <> PROVIDER_JSON
         /\ (existsb tool_signal (last_five ms) = false ->
             strategy r = if String.eqb text EmptyString
                          then UNKNOWN else PROVIDER_NO_JSON).
Proof.
  intros Hw. rewrite (returns_objects parse w a ms sr Hw).
  eexists. split; [reflexivity|].
  intros m text e Hai Hc Hp. rewrite Hai. simpl. rewrite Hc. simpl. rewrite Hp.
  destruct (existsb tool_signal (last_five ms)) eqn:Hsig.
  - rewrite (determine_tool_calling _ _ _ _ Hsig). simpl.
    split; [discriminate | discriminate].
  - rewrite (determine_no_signal _ _ _ _ Hsig). unfold determine. simpl.
    destruct text as [|c text];
      [rewrite empty_length | rewrite nonempty_length by discriminate];
      simpl; split; try discriminate; reflexivity.
Qed.

(** C7, amended, on an answer in prose: the SyntaxError stays inside. *)
Lemma C7_witness :
  exists r,
    fst (analyzeStructuredOutputStrategy 0 Js.Undefined
           (trace_world [AIMessage (Js.Str "Here is my answer in prose.") None]))
    = Ok r
    /\ strategy r = PROVIDER_NO_JSON.
Proof.
  destruct (C7_returns_on_message_objects JSON.parse
              (trace_world [AIMessage (Js.Str "Here is my answer in prose.") None])
              0
              [AIMessage (Js.Str "Here is my answer in prose.") None]
              Js.Undefined eq_refl)
    as (r & Hr & Hcaught).
  exists r. split; [exact Hr|].
  destruct (Hcaught (AIMessage (Js.Str "Here is my answer in prose.") None)
              "Here is my answer in prose." SyntaxError
              eq_refl eq_refl eq_refl)
    as [_ Hrouted].
  exact (Hrouted eq_refl).
Defined.

(** ** Purity *)

Lemma result_is_classification (w : World) (a : Ref) (sr : Js.Value) :
  fst (analyzeStructuredOutputStrategy a sr w) = classification (arrays w !! a) sr.
Proof.
  unfold analyzeStructuredOutputStrategy.
  destruct (arrays w !! a) as [l|] eqn:Ha.
  - rewrite (run_analyze JSON.parse w a l sr Ha). reflexivity.
  - rewrite (run_unallocated JSON.parse w a sr Ha). reflexivity.
Qed.

(** The world after a call: the arrays that were there, followed by the
    copies the call made, and the same console. *)
Lemma world_after (w : World) (a : Ref) (sr : Js.Value) :
  exists fresh,
    snd (analyzeStructuredOutputStrategy a sr w)
    = mkWorld (arrays w ++ fresh) (console w)
    /\ arrays (snd (analyzeStructuredOutputStrategy a sr w)) !! a = arrays w !! a.
Proof.
  unfold analyzeStructuredOutputStrategy.
  destruct (arrays w !! a) as [l|] eqn:Ha.
  - rewrite (run_analyze JSON.parse w a l sr Ha). simpl.
    exists (allocated l). split; [reflexivity|].
    apply lookup_kept. exact Ha.
  - rewrite (run_unallocated JSON.parse w a sr Ha). simpl.
    exists []. rewrite app_nil_r. split; [destruct w; reflexivity | exact Ha].
Qed.

(** C8: the result of a call is a function of the message array and of
    structuredResponse alone: one function [f] gives the result in every
    world, whatever else the store and the console hold; and a second call
    with the same arguments, made in the world the first call left, returns
    the same record. *)
Theorem C8_deterministic_and_pure :
  (exists f : option (list Elem) -> Js.Value -> Result StrategyAnalysis,
     forall (w : World) (a : Ref) (sr : Js.Value),
       fst (analyzeStructuredOutputStrategy a sr w) = f (arrays w !! a) sr)
  /\ (forall (w : World) (a : Ref) (sr : Js.Value),
        fst (analyzeStructuredOutputStrategy a sr
               (snd (analyzeStructuredOutputStrategy a sr w)))
        = fst (analyzeStructuredOutputStrategy a sr w)).
Proof.
  split.
  - exists classification. exact result_is_classification.
  - intros w a sr. rewrite !result_is_classification.
    destruct (world_after w a sr) as (fresh & _ & Hsame). rewrite Hsame. reflexivity.
Qed.

(** C9: a call leaves its inputs as they were.  After the call the array
    behind [messages] holds the same elements in the same order, as does
    every array that existed before: the store has only grown by the copies
    made by [slice] and by the spread, and [reverse] worked on a copy.  The
    console is untouched. *)
Theorem C9_inputs_not_mutated (w : World) (a : Ref) (sr : Js.Value) :
  arrays (snd (analyzeStructuredOutputStrategy a sr w)) !! a = arrays w !! a
  /\ (exists fresh,
        arrays (snd (analyzeStructuredOutputStrategy a sr w)) = arrays w ++ fresh)
  /\ console (snd (analyzeStructuredOutputStrategy a sr w)) = console w.
Proof.
  destruct (world_after w a sr) as (fresh & Hw & Hsame).
  split; [exact Hsame|]. rewrite Hw. simpl. split; [exists fresh|]; reflexivity.
Qed.

(** ** The examples of the specification

    The four examples of section 8, with the assistant turn an [AIMessage]. *)

Example example_1_tool_calling :
  fst (analyzeStructuredOutputStrategy 0 Js.Undefined
         (trace_world
            [AIMessage (Js.Str EmptyString) (Some [mkToolCall (Some "tavily_search")])]))
  = Ok (mkAnalysis TOOL_CALLING false (tool_calling_details "tavily_search")
          (Some Js.Undefined))
  /\ Js.includes (tool_calling_details "tavily_search") "tavily_search" = true.
Proof. split; vm_compute; reflexivity. Qed.

Example example_2_provider_json :
  fst (analyzeStructuredOutputStrategy 0 Js.Undefined
         (trace_world
            [AIMessage (Js.Str (dq "{'title':'Blade Runner','year':1982}")) None]))
  = Ok (provider_json
          (Js.Obj [("title", Js.Str "Blade Runner");
                   ("year", Js.Num (Js.mkNumber false 1982 0))])).
Proof. vm_compute. reflexivity. Qed.

Example example_3_provider_no_json :
  fst (analyzeStructuredOutputStrategy 0 Js.Undefined
         (trace_world [AIMessage (Js.Str "Here is my answer in prose.") None]))
  = Ok provider_no_json.
Proof. vm_compute. reflexivity. Qed.

Example example_4_unknown :
  fst (analyzeStructuredOutputStrategy 0
         (Js.Obj [("foo", Js.Num (Js.mkNumber false 1 0))]) (world_of []))
  = Ok (mkAnalysis UNKNOWN true "Could not determine strategy" None).
Proof. reflexivity. Qed.

(** The assistant test is the one of the source: the class name or
    [_getType()].  A plain object with a [role] field passes neither, so its
    content is not looked at. *)
Example plain_object_is_not_an_assistant_message :
  fst (analyzeStructuredOutputStrategy 0 Js.Undefined
         (trace_world
            [Message.mk (Some "Object") None
               (Js.Str (dq "{'title':'Blade Runner','year':1982}")) None None]))
  = Ok (unknown Js.Undefined).
Proof. vm_compute. reflexivity. Qed.

(** * Further properties *)

(** ** What every returned record satisfies *)

Lemma outcome_inv (parse : string -> Result Js.Value)
    (l : list Elem) (sr : Js.Value) (r : StrategyAnalysis) :
  outcome parse l sr = Ok r ->
  exists toolCallMessage toolResponseMessage lastAiMessage,
    Array.first_match (callback has_tool_calls) (last_five l) = Ok toolCallMessage
    /\ Array.first_match (callback is_tool_response) (last_five l)
       = Ok toolResponseMessage
    /\ Array.first_match (callback is_ai) (rev l) = Ok lastAiMessage
    /\ r = determine toolCallMessage toolResponseMessage (content_of lastAiMessage)
             (try_parse parse (content_of lastAiMessage)) sr.
Proof.
  unfold outcome. intros H.
  destruct (Array.first_match (callback has_tool_calls) (last_five l)) as [tcm|]; [|discriminate].
  destruct (Array.first_match (callback is_tool_response) (last_five l)) as [trm|]; [|discriminate].
  destruct (Array.first_match (callback is_ai) (rev l)) as [ai|]; [|discriminate].
  injection H as <-. exists tcm, trm, ai. repeat split.
Qed.

Lemma returns_inv (parse : string -> Result Js.Value)
    (w : World) (a : Ref) (sr : Js.Value) (r : StrategyAnalysis) :
  fst (analyzeStructuredOutputStrategyWith parse a sr w) = Ok r ->
  exists l, arrays w !! a = Some l /\ outcome parse l sr = Ok r.
Proof.
  intros H. destruct (arrays w !! a) as [l|] eqn:Ha.
  - exists l. split; [reflexivity|].
    rewrite (run_analyze parse w a l sr Ha) in H. exact H.
  - rewrite (run_unallocated parse w a sr Ha) in H. discriminate.
Qed.

Lemma returned_is_determined (w : World) (a : Ref) (sr : Js.Value)
    (r : StrategyAnalysis) :
  fst (analyzeStructuredOutputStrategy a sr w) = Ok r ->
  exists toolCallMessage toolResponseMessage lastContent,
    r = determine toolCallMessage toolResponseMessage lastContent
          (try_parse JSON.parse lastContent) sr.
Proof.
  intros H. apply returns_inv in H as (l & _ & H).
  apply outcome_inv in H as (tcm & trm & ai & _ & _ & _ & ->). eauto.
Qed.

(** The four branches of [determine], by what they test. *)
Lemma determine_cases (tcm trm : Elem) (lastContent parsed sr : Js.Value) :
  (found tcm || found trm = true
   /\ determine tcm trm lastContent parsed sr
      = mkAnalysis TOOL_CALLING (Js.is_defined sr)
          (tool_calling_details
             (or_literal (or_else (first_call_name tcm) (name_of trm)) "unknown"))
          (Some parsed))
  \/ (found tcm || found trm = false
      /\ Js.truthy parsed = true
      /\ determine tcm trm lastContent parsed sr = provider_json parsed)
  \/ (found tcm || found trm = false
      /\ Js.truthy parsed = false
      /\ has_text lastContent = true
      /\ determine tcm trm lastContent parsed sr = provider_no_json)
  \/ (found tcm || found trm = false
      /\ Js.truthy parsed = false
      /\ has_text lastContent = false
      /\ determine tcm trm lastContent parsed sr = unknown sr).
Proof.
  unfold determine.
  destruct (found tcm || found trm) eqn:Hf; [left; split; reflexivity|].
  right. destruct (Js.truthy parsed) eqn:Ht.
  { left. repeat split. unfold provider_json.
    rewrite (truthy_is_defined parsed Ht), orb_true_r. reflexivity. }
  right. destruct lastContent as [| |b|n|text|items|props];
    try (right; repeat split; reflexivity).
  destruct text as [|c text];
    [right | left; rewrite nonempty_length by discriminate];
    repeat split; reflexivity.
Qed.

(** X1: the success flag.  Whenever a call returns, structuredOutputWorked is
    true exactly when the strategy is PROVIDER_JSON, or structuredResponse is
    defined and the strategy is not PROVIDER_NO_JSON.  A defined
    structuredResponse is reported as FAILED under PROVIDER_NO_JSON, and an
    undefined one as WORKED under PROVIDER_JSON. *)
Theorem success_flag_by_strategy
    (w : World) (a : Ref) (sr : Js.Value) (r : StrategyAnalysis) :
  fst (analyzeStructuredOutputStrategy a sr w) = Ok r ->
  structuredOutputWorked r
  = match strategy r with
    | PROVIDER_JSON => true
    | PROVIDER_NO_JSON => false
    | TOOL_CALLING | UNKNOWN => Js.is_defined sr
    end.
Proof.
  intros H. apply returned_is_determined in H as (tcm & trm & c & ->).
  destruct (determine_cases tcm trm c (try_parse JSON.parse c) sr)
    as [(_ & ->) | [(_ & _ & ->) | [(_ & _ & _ & ->) | (_ & _ & _ & ->)]]];
    reflexivity.
Qed.

(** The flag on a one-message trace with valid JSON and no structuredResponse. *)
Lemma success_flag_by_strategy_witness :
  structuredOutputWorked
    (provider_json (Js.Obj [("title", Js.Str "x");
                            ("year", Js.Num (Js.mkNumber false 1 0))]))
  = true.
Proof.
  exact (success_flag_by_strategy (trace_world title_year_trace) 0 Js.Undefined
           (provider_json (Js.Obj [("title", Js.Str "x");
                                   ("year", Js.Num (Js.mkNumber false 1 0))]))
           eq_refl).
Defined.

(** X2: the recovered JSON.  Whenever a call returns, the record has a
    parsedJson key exactly under TOOL_CALLING and PROVIDER_JSON; under
    PROVIDER_JSON its value is truthy, so the report always compares keys
    then; under TOOL_CALLING it is whatever the content parsed to, undefined
    included. *)
Theorem parsed_json_by_strategy
    (w : World) (a : Ref) (sr : Js.Value) (r : StrategyAnalysis) :
  fst (analyzeStructuredOutputStrategy a sr w) = Ok r ->
  match strategy r with
  | PROVIDER_JSON => exists v, parsedJson r = Some v /\ Js.truthy v = true
  | TOOL_CALLING => exists v, parsedJson r = Some v
  | PROVIDER_NO_JSON | UNKNOWN => parsedJson r = None
  end.
Proof.
  intros H. apply returned_is_determined in H as (tcm & trm & c & ->).
  destruct (determine_cases tcm trm c (try_parse JSON.parse c) sr)
    as [(_ & ->) | [(_ & Ht & ->) | [(_ & _ & _ & ->) | (_ & _ & _ & ->)]]];
    simpl; eauto.
Qed.

Lemma parsed_json_by_strategy_witness :
  exists v,
    parsedJson
      (mkAnalysis TOOL_CALLING false (tool_calling_details "data-extractor")
         (Some Js.Undefined))
    = Some v.
Proof.
  exact (parsed_json_by_strategy (trace_world named_user_trace) 0 Js.Undefined
           (mkAnalysis TOOL_CALLING false (tool_calling_details "data-extractor")
              (Some Js.Undefined))
           eq_refl).
Defined.

(** X3: structuredResponse reaches the success flag only.  Two calls on the
    same array with different structuredResponse values both throw the same
    exception, or both return, with the same strategy, the same details and
    the same parsedJson. *)
Theorem structured_response_only_sets_the_flag
    (w : World) (a : Ref) (sr sr' : Js.Value) :
  match fst (analyzeStructuredOutputStrategy a sr w),
        fst (analyzeStructuredOutputStrategy a sr' w) with
  | Ok r, Ok r' =>
      strategy r = strategy r' /\ details r = details r'
      /\ parsedJson r = parsedJson r'
  | Throw e, Throw e' => e = e'
  | _, _ => False
  end.
Proof.
  rewrite !result_is_classification.
  destruct (arrays w !! a) as [l|]; simpl; [|reflexivity].
  unfold outcome.
  destruct (Array.first_match (callback has_tool_calls) (last_five l)) as [tcm|]; [|reflexivity].
  destruct (Array.first_match (callback is_tool_response) (last_five l)) as [trm|]; [|reflexivity].
  destruct (Array.first_match (callback is_ai) (rev l)) as [ai|]; [|reflexivity].
  unfold determine.
  destruct (found tcm || found trm); [repeat split|].
  destruct (Js.truthy _); [repeat split|].
  destruct (content_of ai) as [| |b|n|text|items|props]; simpl;
    try destruct (0 <? Js.length text)%nat; repeat split.
Qed.

(** ** When each strategy is reported *)

Lemma strategy_without_signal (parse : string -> Result Js.Value)
    (lastContent sr : Js.Value) :
  strategy (determine EUndefined EUndefined lastContent
              (try_parse parse lastContent) sr)
  = if Js.truthy (try_parse parse lastContent) then PROVIDER_JSON
    else if has_text lastContent then PROVIDER_NO_JSON
    else UNKNOWN.
Proof.
  destruct (determine_cases EUndefined EUndefined lastContent
              (try_parse parse lastContent) sr)
    as [(Hf & _) | [(_ & Ht & ->) | [(_ & Ht & Hc & ->) | (_ & Ht & Hc & ->)]]];
    [discriminate | rewrite Ht .. ]; try rewrite Hc; reflexivity.
Qed.

(** Content that parses is a non-empty string: the empty text is not JSON. *)
Lemma parsed_content_has_text (lastContent : Js.Value) :
  Js.truthy (try_parse JSON.parse lastContent) = true ->
  has_text lastContent = true.
Proof.
  destruct lastContent as [| |b|n|text|items|props]; simpl; try discriminate.
  destruct text; [discriminate | reflexivity].
Qed.

Lemma truthy_parse_iff (o : option Message.t) :
  Js.truthy (try_parse JSON.parse (content_of (elem_of o))) = true
  <-> exists m text v,
        o = Some m /\ Message.content m = Js.Str text
        /\ JSON.parse text = Ok v /\ Js.truthy v = true.
Proof.
  split.
  - destruct o as [m|]; simpl; [|discriminate].
    destruct (Message.content m) as [| |b|n|text|items|props] eqn:Hc; simpl;
      try discriminate.
    destruct (JSON.parse text) as [v|e] eqn:Hp; [|discriminate].
    intros Ht. exists m, text, v. auto.
  - intros (m & text & v & -> & Hc & Hp & Ht). simpl. rewrite Hc. simpl.
    rewrite Hp. exact Ht.
Qed.

Lemma falsy_text_iff (o : option Message.t) :
  Js.truthy (try_parse JSON.parse (content_of (elem_of o))) = false
  /\ has_text (content_of (elem_of o)) = true
  <-> exists m text,
        o = Some m /\ Message.content m = Js.Str text
        /\ text <> EmptyString
        /\ forall v, JSON.parse text = Ok v -> Js.truthy v = false.
Proof.
  split.
  - destruct o as [m|]; simpl; [|intros [_ H]; discriminate].
    destruct (Message.content m) as [| |b|n|text|items|props] eqn:Hc; simpl;
      try (intros [_ H]; discriminate).
    intros [Ht Hh]. exists m, text.
    split; [reflexivity|]. split; [exact Hc|]. split.
    + intros ->. discriminate.
    + intros v Hp. rewrite Hp in Ht. exact Ht.
  - intros (m & text & -> & Hc & Hne & Hall). simpl. rewrite Hc. simpl. split.
    + destruct (JSON.parse text) as [v|e]; [apply Hall|]; reflexivity.
    + destruct text; [congruence | reflexivity].
Qed.

(** X4: the three provider outcomes, as equivalences.  On a trace of message
    objects whose last five messages carry no tool-calling signal:
    PROVIDER_JSON is reported exactly when the most recent assistant message
    has a string content that JSON.parse accepts with a truthy value;
    PROVIDER_NO_JSON exactly when that content is a non-empty string that
    JSON.parse rejects or parses to a falsy value; UNKNOWN exactly when there
    is no assistant message or its content is not a non-empty string.  With a
    signal in the window none of the three is reported. *)
Theorem provider_strategies_characterised
    (w : World) (a : Ref) (ms : list Message.t) (sr : Js.Value)
    (r : StrategyAnalysis) :
  holds_trace w a ms ->
  fst (analyzeStructuredOutputStrategy a sr w) = Ok r ->
  (strategy r = PROVIDER_JSON
   <-> existsb tool_signal (last_five ms) = false
       /\ exists m text v,
            last_ai_message ms = Some m
            /\ Message.content m = Js.Str text
            /\ JSON.parse text = Ok v
            /\ Js.truthy v = true)
  /\ (strategy r = PROVIDER_NO_JSON
      <-> existsb tool_signal (last_five ms) = false
          /\ exists m text,
               last_ai_message ms = Some m
               /\ Message.content m = Js.Str text
               /\ text <> EmptyString
               /\ forall v, JSON.parse text = Ok v -> Js.truthy v = false)
  /\ (strategy r = UNKNOWN
      <-> existsb tool_signal (last_five ms) = false
          /\ has_text (content_of (elem_of (last_ai_message ms))) = false).
Proof.
  intros Hw Hr. unfold analyzeStructuredOutputStrategy in Hr.
  rewrite (returns_objects _ w a ms sr Hw) in Hr. injection Hr as <-.
  rewrite <- truthy_parse_iff, <- falsy_text_iff.
  destruct (existsb tool_signal (last_five ms)) eqn:Hsig.
  { rewrite (determine_tool_calling _ _ _ _ Hsig). simpl. intuition congruence. }
  rewrite (determine_no_signal _ _ _ _ Hsig), strategy_without_signal.
  pose proof (parsed_content_has_text
                (content_of (elem_of (last_ai_message ms)))) as Htext.
  destruct (Js.truthy _); destruct (has_text _);
    try (specialize (Htext eq_refl); discriminate); intuition congruence.
Qed.

(** Read backwards on the trace of the key-match example: the strategy is
    PROVIDER_JSON, so the content parsed to a truthy value. *)
Lemma provider_strategies_characterised_witness :
  existsb tool_signal (last_five title_year_trace) = false
  /\ exists m text v,
       last_ai_message title_year_trace = Some m
       /\ Message.content m = Js.Str text
       /\ JSON.parse text = Ok v
       /\ Js.truthy v = true.
Proof.
  destruct (provider_strategies_characterised
              (trace_world title_year_trace) 0 title_year_trace Js.Undefined
              (provider_json
                 (Js.Obj [("title", Js.Str "x");
                          ("year", Js.Num (Js.mkNumber false 1 0))]))
              eq_refl eq_refl)
    as ([Honly _] & _).
  exact (Honly eq_refl).
Defined.

(** ** When a call throws *)

Lemma first_match_throw (c : Message.t -> bool) (l : list Elem) (e : Error) :
  Array.first_match (callback c) l = Throw e ->
  e = TypeError /\ existsb nullish l = true.
Proof.
  induction l as [|x l IH]; simpl; [discriminate|].
  destruct x as [| |m]; simpl.
  - intros H. injection H as <-. split; reflexivity.
  - intros H. injection H as <-. split; reflexivity.
  - destruct (c m); [discriminate | exact IH].
Qed.

(** X6: a null or undefined element at the end of the array always ends the
    call with a TypeError, whatever precedes it: the scan for the last
    assistant message starts there, and the scans of the window reach it or
    throw earlier. *)
Theorem trailing_nullish_element_throws
    (parse : string -> Result Js.Value)
    (w : World) (a : Ref) (l : list Elem) (x : Elem) (sr : Js.Value) :
  arrays w !! a = Some (l ++ [x]) ->
  nullish x = true ->
  fst (analyzeStructuredOutputStrategyWith parse a sr w) = Throw TypeError.
Proof.
  intros Ha Hx. rewrite (run_analyze parse w a _ sr Ha). simpl. unfold outcome.
  destruct (Array.first_match (callback has_tool_calls) (last_five (l ++ [x])))
    as [tcm|e1] eqn:H1.
  2:{ destruct (first_match_throw _ _ _ H1) as [-> _]. reflexivity. }
  destruct (Array.first_match (callback is_tool_response) (last_five (l ++ [x])))
    as [trm|e2] eqn:H2.
  2:{ destruct (first_match_throw _ _ _ H2) as [-> _]. reflexivity. }
  rewrite rev_app_distr. simpl. destruct x; [reflexivity | reflexivity | discriminate].
Qed.

Lemma trailing_nullish_element_throws_witness :
  fst (analyzeStructuredOutputStrategyWith JSON.parse 0 Js.Undefined
         (world_of
            [EObject (AIMessage (Js.Str EmptyString)
                        (Some [mkToolCall (Some "tavily_search")]));
             EUndefined]))
  = Throw TypeError.
Proof.
  exact (trailing_nullish_element_throws JSON.parse
           (world_of
              [EObject (AIMessage (Js.Str EmptyString)
                          (Some [mkToolCall (Some "tavily_search")]));
               EUndefined])
           0
           [EObject (AIMessage (Js.Str EmptyString)
                       (Some [mkToolCall (Some "tavily_search")]))]
           EUndefined Js.Undefined eq_refl eq_refl).
Defined.

(** ** What a call reads *)

Lemma first_match_app (c : Message.t -> bool) (l1 l2 : list Elem) :
  Array.first_match (callback c) (l1 ++ l2)
  = match Array.first_match (callback c) l1 with
    | Ok EUndefined => Array.first_match (callback c) l2
    | r => r
    end.
Proof.
  induction l1 as [|x l1 IH]; simpl; [reflexivity|].
  destruct x as [| |m]; simpl; try reflexivity.
  destruct (c m); [reflexivity | exact IH].
Qed.

Lemma first_match_finds (c : Message.t -> bool) (l : list Elem) (m : Message.t) :
  In (EObject m) l -> c m = true ->
  Array.first_match (callback c) l <> Ok EUndefined.
Proof.
  intros Hin Hm. induction l as [|x l IH]; simpl; [contradiction|].
  destruct x as [| |m']; simpl; try discriminate.
  destruct (c m') eqn:Hc; [discriminate|].
  apply IH. destruct Hin as [Heq|Hin]; [|exact Hin].
  injection Heq as ->. congruence.
Qed.

Lemma last_five_of_recent {A} (older recent : list A) :
  5 <= length recent -> last_five (older ++ recent) = last_five recent.
Proof.
  intros H. unfold last_five. rewrite length_app, skipn_app.
  replace (length older + length recent - 5 - length older)
    with (length recent - 5) by lia.
  rewrite skipn_all2 by lia. reflexivity.
Qed.

(** X7: what a call reads.  When the array ends with at least five elements
    among which there is an assistant message, nothing before them is read:
    the call gives the result it gives on those last elements alone, even
    when the older part holds null or undefined elements. *)
Theorem older_elements_are_not_read
    (w w' : World) (a a' : Ref) (older recent : list Elem) (m : Message.t)
    (sr : Js.Value) :
  arrays w !! a = Some (older ++ recent) ->
  arrays w' !! a' = Some recent ->
  5 <= length recent ->
  In (EObject m) recent ->
  is_ai m = true ->
  fst (analyzeStructuredOutputStrategy a sr w)
  = fst (analyzeStructuredOutputStrategy a' sr w').
Proof.
  intros Ha Ha' Hlen Hin Hm. unfold analyzeStructuredOutputStrategy.
  rewrite (run_analyze JSON.parse w a _ sr Ha), (run_analyze JSON.parse w' a' _ sr Ha').
  simpl. unfold outcome.
  rewrite (last_five_of_recent older recent Hlen), rev_app_distr, first_match_app.
  assert (Hfound := first_match_finds is_ai (rev recent) m
                      (proj1 (in_rev recent (EObject m)) Hin) Hm).
  destruct (Array.first_match (callback is_ai) (rev recent)) as [[| |m']|e];
    try reflexivity.
  congruence.
Qed.

Lemma older_elements_are_not_read_witness :
  fst (analyzeStructuredOutputStrategy 0 Js.Undefined
         (world_of
            ([ENull; EUndefined]
             ++ [EObject (HumanMessage "one"); EObject (HumanMessage "two");
                 EObject (AIMessage (Js.Str "{}") None);
                 EObject (HumanMessage "three"); EObject (HumanMessage "four")])))
  = fst (analyzeStructuredOutputStrategy 0 Js.Undefined
           (world_of
              [EObject (HumanMessage "one"); EObject (HumanMessage "two");
               EObject (AIMessage (Js.Str "{}") None);
               EObject (HumanMessage "three"); EObject (HumanMessage "four")])).
Proof.
  apply (older_elements_are_not_read _ _ 0 0 [ENull; EUndefined]
           [EObject (HumanMessage "one"); EObject (HumanMessage "two");
            EObject (AIMessage (Js.Str "{}") None);
            EObject (HumanMessage "three"); EObject (HumanMessage "four")]
           (AIMessage (Js.Str "{}") None) Js.Undefined).
  - reflexivity.
  - reflexivity.
  - simpl. lia.
  - simpl. auto.
  - reflexivity.
Defined.

(** ** The report, on any array *)

Lemma run_log_unallocated (parse : string -> Result Js.Value)
    (w : World) (a : Ref) (sr : Js.Value) (schemaKeys : list string) :
  arrays w !! a = None ->
  logStrategyAnalysisWith parse a sr schemaKeys w = (Throw TypeError, w).
Proof.
  intros Ha. unfold logStrategyAnalysisWith. unfold bind at 1.
  rewrite (run_unallocated parse w a sr Ha). reflexivity.
Qed.

Lemma run_log_throw (parse : string -> Result Js.Value)
    (w : World) (a : Ref) (l : list Elem) (sr : Js.Value)
    (schemaKeys : list string) (e : Error) :
  arrays w !! a = Some l ->
  outcome parse l sr = Throw e ->
  logStrategyAnalysisWith parse a sr schemaKeys w
  = (Throw e, mkWorld (arrays w ++ allocated l) (console w)).
Proof.
  intros Ha He. unfold logStrategyAnalysisWith. unfold bind at 1.
  rewrite (run_analyze parse w a l sr Ha), He. reflexivity.
Qed.

Lemma run_log_return (parse : string -> Result Js.Value)
    (w : World) (a : Ref) (l : list Elem) (sr : Js.Value)
    (schemaKeys : list string) (r : StrategyAnalysis) :
  arrays w !! a = Some l ->
  outcome parse l sr = Ok r ->
  logStrategyAnalysisWith parse a sr schemaKeys w
  = (Ok tt,
     mkWorld (arrays w ++ [last_five l; rev l; rev l])
       (console w ++ report r sr schemaKeys (last_ai_element l))).
Proof.
  intros Ha Hr. unfold logStrategyAnalysisWith.
  unfold bind at 1.
  rewrite (run_analyze parse w a l sr Ha), Hr.
  destruct (outcome_inv parse l sr r Hr) as (tcm & trm & ai & H1 & H2 & H3 & _).
  unfold allocated. rewrite H1, H2.
  do 6 (unfold bind at 1; unfold console_log at 1; simpl arrays; simpl console).
  unfold bind at 1.
  assert (Hworked : forall w0 : World,
    (if structuredOutputWorked r
     then console_log "✅ Structured output WORKED"
     else console_log "❌ Structured output FAILED") w0
    = (Ok tt, mkWorld (arrays w0)
                (console w0 ++ [if structuredOutputWorked r
                                then "✅ Structured output WORKED"
                                else "❌ Structured output FAILED"]))).
  { intros w0. destruct (structuredOutputWorked r); reflexivity. }
  rewrite Hworked. simpl arrays. simpl console.
  unfold bind at 1. rewrite run_log_schema_match. simpl arrays. simpl console.
  rewrite run_last_ai with (l := l).
  2:{ simpl. apply lookup_kept. exact Ha. }
  unfold last_ai_element. rewrite H3.
  unfold bind at 1. rewrite run_log_preview. simpl arrays. simpl console.
  unfold console_log. simpl arrays. simpl console.
  unfold report. rewrite <- !app_assoc. simpl. reflexivity.
Qed.

(** X8: reporting fails exactly when the analysis fails.  A call of
    logStrategyAnalysis returns whenever analyzeStructuredOutputStrategy
    returns on the same arguments (neither Object.keys nor the second search
    for the assistant message can throw then); when the analysis throws, the
    report throws the same exception and nothing has been logged. *)
Theorem report_fails_only_with_the_analysis
    (w : World) (a : Ref) (sr : Js.Value) (schemaKeys : list string) :
  match fst (analyzeStructuredOutputStrategy a sr w) with
  | Ok _ => fst (logStrategyAnalysis a sr schemaKeys w) = Ok tt
  | Throw e =>
      fst (logStrategyAnalysis a sr schemaKeys w) = Throw e
      /\ console (snd (logStrategyAnalysis a sr schemaKeys w)) = console w
  end.
Proof.
  unfold analyzeStructuredOutputStrategy, logStrategyAnalysis.
  destruct (arrays w !! a) as [l|] eqn:Ha.
  - rewrite (run_analyze JSON.parse w a l sr Ha). simpl.
    destruct (outcome JSON.parse l sr) as [r|e] eqn:Ho.
    + rewrite (run_log_return JSON.parse w a l sr schemaKeys r Ha Ho). reflexivity.
    + rewrite (run_log_throw JSON.parse w a l sr schemaKeys e Ha Ho).
      split; reflexivity.
  - rewrite (run_unallocated JSON.parse w a sr Ha),
      (run_log_unallocated JSON.parse w a sr schemaKeys Ha).
    split; reflexivity.
Qed.

(** X9: a report does not disturb what it reports on.  After a call of
    logStrategyAnalysis the array behind [messages] and every earlier array
    are as before, the console has only grown at its end, and the analysis of
    the same arguments gives the same result as before the call. *)
Theorem report_leaves_its_inputs
    (w : World) (a : Ref) (sr : Js.Value) (schemaKeys : list string) :
  arrays (snd (logStrategyAnalysis a sr schemaKeys w)) !! a = arrays w !! a
  /\ (exists fresh,
        arrays (snd (logStrategyAnalysis a sr schemaKeys w)) = arrays w ++ fresh)
  /\ (exists lines,
        console (snd (logStrategyAnalysis a sr schemaKeys w)) = console w ++ lines)
  /\ fst (analyzeStructuredOutputStrategy a sr
            (snd (logStrategyAnalysis a sr schemaKeys w)))
     = fst (analyzeStructuredOutputStrategy a sr w).
Proof.
  assert (H : arrays (snd (logStrategyAnalysis a sr schemaKeys w)) !! a = arrays w !! a
              /\ (exists fresh,
                    arrays (snd (logStrategyAnalysis a sr schemaKeys w))
                    = arrays w ++ fresh)
              /\ (exists lines,
                    console (snd (logStrategyAnalysis a sr schemaKeys w))
                    = console w ++ lines)).
  { unfold logStrategyAnalysis.
    destruct (arrays w !! a) as [l|] eqn:Ha.
    - destruct (outcome JSON.parse l sr) as [r|e] eqn:Ho.
      + rewrite (run_log_return JSON.parse w a l sr schemaKeys r Ha Ho). simpl.
        split; [apply lookup_kept; exact Ha|]. split; eauto.
      + rewrite (run_log_throw JSON.parse w a l sr schemaKeys e Ha Ho). simpl.
        split; [apply lookup_kept; exact Ha|]. split; [eauto|].
        exists []. rewrite app_nil_r. reflexivity.
    - rewrite (run_log_unallocated JSON.parse w a sr schemaKeys Ha). simpl.
      split; [exact Ha|]. split; exists []; rewrite app_nil_r; reflexivity. }
  destruct H as (Hsame & Hfresh & Hlines).
  split; [exact Hsame|]. split; [exact Hfresh|]. split; [exact Hlines|].
  rewrite !result_is_classification, Hsame. reflexivity.
Qed.

(** ** What the report holds *)

Lemma schema_lines_length (json : Js.Value) (schemaKeys : list string) :
  length (schema_lines json schemaKeys) = if Js.truthy json then 3 else 0.
Proof.
  unfold schema_lines. destruct (Js.truthy json) eqn:Ht; [|reflexivity].
  destruct (truthy_has_keys json Ht) as [ks ->]. reflexivity.
Qed.

Lemma preview_lines_length (lastAiMessage : Elem) :
  length (preview_lines lastAiMessage)
  = if has_text (content_of lastAiMessage) then 2 else 0.
Proof.
  unfold preview_lines, has_text.
  destruct (content_of lastAiMessage) as [| |b|n|text|items|props]; try reflexivity.
  simpl. destruct (negb (text =? EmptyString)%string); reflexivity.
Qed.

(** X10: the size and the frame of a report.  On a trace of message objects a
    call of logStrategyAnalysis appends to the console eight lines, three
    more when the recovered JSON is truthy, and two more when the most recent
    assistant content is a non-empty string.  The block starts with a blank
    line and a rule, ends with a rule, and shows the strategy, the details
    and the verdict of the record the analysis returns. *)
Theorem report_lines
    (w : World) (a : Ref) (ms : list Message.t) (sr : Js.Value)
    (schemaKeys : list string) (r : StrategyAnalysis) :
  holds_trace w a ms ->
  fst (analyzeStructuredOutputStrategy a sr w) = Ok r ->
  exists lines,
    console (snd (logStrategyAnalysis a sr schemaKeys w)) = console w ++ lines
    /\ length lines
       = 8 + (if Js.truthy (recovered_json r) then 3 else 0)
           + (if has_text (content_of (elem_of (last_ai_message ms))) then 2 else 0)
    /\ head lines = Some (newline ++ rule)%string
    /\ List.last lines EmptyString = rule
    /\ In ("Strategy Detected: " ++ strategy_text (strategy r))%string lines
    /\ In ("Details: " ++ details r)%string lines
    /\ In (if structuredOutputWorked r
           then "✅ Structured output WORKED"
           else "❌ Structured output FAILED") lines.
Proof.
  intros Hw Hr. unfold logStrategyAnalysis.
  rewrite (run_log JSON.parse w a ms sr schemaKeys r Hw Hr). simpl.
  eexists. split; [reflexivity|]. unfold report.
  split.
  { rewrite !length_app, schema_lines_length, preview_lines_length.
    unfold recovered_json. simpl. lia. }
  split; [reflexivity|].
  split.
  { rewrite !app_assoc. apply last_last. }
  simpl. auto 10.
Qed.

Lemma report_lines_witness :
  exists lines,
    title_year_report = [] ++ lines
    /\ length lines = 8 + 3 + 2.
Proof.
  destruct (report_lines (trace_world title_year_trace) 0 title_year_trace
              Js.Undefined ["title"; "year"; "genre"]
              (provider_json
                 (Js.Obj [("title", Js.Str "x");
                          ("year", Js.Num (Js.mkNumber false 1 0))]))
              eq_refl eq_refl)
    as (lines & Hconsole & Hlength & _).
  exists lines. split; [exact Hconsole | exact Hlength].
Defined.

Lemma provider_json_record (w : World) (a : Ref) (sr : Js.Value)
    (r : StrategyAnalysis) :
  fst (analyzeStructuredOutputStrategy a sr w) = Ok r ->
  strategy r = PROVIDER_JSON ->
  exists v, r = provider_json v /\ Js.truthy v = true.
Proof.
  intros H Hs. apply returned_is_determined in H as (tcm & trm & c & ->).
  destruct (determine_cases tcm trm c (try_parse JSON.parse c) sr)
    as [(_ & He) | [(_ & Ht & He) | [(_ & _ & _ & He) | (_ & _ & _ & He)]]];
    rewrite He in *; try discriminate.
  eauto.
Qed.

(** X11: WORKED is not a verdict on the schema.  Under PROVIDER_JSON the
    report says that structured output WORKED, whatever structuredResponse
    is, and in the same block says that the schema match is NO as soon as one
    expected key is not a key of the recovered JSON. *)
Theorem worked_despite_schema_mismatch
    (w : World) (a : Ref) (ms : list Message.t) (sr : Js.Value)
    (schemaKeys : list string) (r : StrategyAnalysis)
    (v : Js.Value) (jsonKeys : list string) (k : string) :
  holds_trace w a ms ->
  fst (analyzeStructuredOutputStrategy a sr w) = Ok r ->
  strategy r = PROVIDER_JSON ->
  parsedJson r = Some v ->
  Object.keys v = Ok jsonKeys ->
  In k schemaKeys ->
  ~ In k jsonKeys ->
  exists lines,
    console (snd (logStrategyAnalysis a sr schemaKeys w)) = console w ++ lines
    /\ In "✅ Structured output WORKED" lines
    /\ In "Schema match: ❌ NO" lines.
Proof.
  intros Hw Hr Hs Hpj Hk Hin Hnot.
  destruct (provider_json_record w a sr r Hr Hs) as (v' & Hrec & Ht).
  unfold logStrategyAnalysis.
  rewrite (run_log JSON.parse w a ms sr schemaKeys r Hw Hr). simpl.
  eexists. split; [reflexivity|]. unfold report.
  rewrite Hrec in Hpj. injection Hpj as ->. rewrite Hrec. simpl.
  unfold schema_lines. rewrite Ht, Hk.
  assert (Hno : has_expected_keys schemaKeys jsonKeys = false).
  { destruct (has_expected_keys schemaKeys jsonKeys) eqn:He; [|reflexivity].
    destruct Hnot. exact (proj1 (has_expected_keys_spec _ _) He k Hin). }
  rewrite Hno. simpl. split; auto 20.
Qed.

Lemma worked_despite_schema_mismatch_witness :
  exists lines,
    title_year_report = [] ++ lines
    /\ In "✅ Structured output WORKED" lines
    /\ In "Schema match: ❌ NO" lines.
Proof.
  apply (worked_despite_schema_mismatch (trace_world title_year_trace) 0
           title_year_trace Js.Undefined ["title"; "year"; "genre"]
           (provider_json
              (Js.Obj [("title", Js.Str "x");
                       ("year", Js.Num (Js.mkNumber false 1 0))]))
           (Js.Obj [("title", Js.Str "x");
                    ("year", Js.Num (Js.mkNumber false 1 0))])
           ["title"; "year"] "genre").
  - reflexivity.
  - reflexivity.
  - reflexivity.
  - reflexivity.
  - reflexivity.
  - simpl. auto.
  - simpl. intros [H | [H | []]]; discriminate.
Defined.

(** ** Code units

    Reading the code units of a string and writing them back: the bytes
    written for a sequence of code units decode to that sequence. *)

Lemma decode_code_point (cp : N) (tail : list N) :
  (cp < 65536)%N ->
  Js.units_of_bytes (Js.utf8_of_code_point cp ++ tail)
  = cp :: Js.units_of_bytes tail.
Proof.
  intros Hcp. unfold Js.utf8_of_code_point.
  destruct (N.ltb_spec cp 128).
  { simpl. destruct (N.ltb_spec cp 192); [reflexivity | lia]. }
  destruct (N.ltb_spec cp 2048).
  { cbn [app Js.units_of_bytes]. unfold Js.is_continuation. decide_tests.
    cbn [negb andb]. f_equal. div_lia. }
  destruct (N.ltb_spec cp 65536); [|lia].
  cbn [app Js.units_of_bytes]. unfold Js.is_continuation. decide_tests.
  cbn [negb andb]. f_equal. div_lia.
Qed.

Lemma decode_surrogate_pair (u v : N) (tail : list N) :
  Js.is_high_surrogate u = true ->
  Js.is_low_surrogate v = true ->
  Js.units_of_bytes
    (Js.utf8_of_code_point (65536 + (u - 55296) * 1024 + (v - 56320)) ++ tail)
  = u :: v :: Js.units_of_bytes tail.
Proof.
  unfold Js.is_high_surrogate, Js.is_low_surrogate.
  intros Hu Hv.
  apply andb_true_iff in Hu as [Hu1 Hu2]. apply andb_true_iff in Hv as [Hv1 Hv2].
  apply N.leb_le in Hu1, Hv1. apply N.ltb_lt in Hu2, Hv2.
  set (cp := (65536 + (u - 55296) * 1024 + (v - 56320))%N).
  assert (Hcp : (65536 <= cp < 1114112)%N) by (subst cp; lia).
  unfold Js.utf8_of_code_point.
  destruct (N.ltb_spec cp 128); [lia|].
  destruct (N.ltb_spec cp 2048); [lia|].
  destruct (N.ltb_spec cp 65536); [lia|].
  cbn [app Js.units_of_bytes]. unfold Js.is_continuation.
  assert (Hback :
    ((240 + cp / 262144 - 240) * 262144 + (128 + (cp / 4096) mod 64 - 128) * 4096
     + (128 + (cp / 64) mod 64 - 128) * 64 + (128 + cp mod 64 - 128) = cp)%N)
    by div_lia.
  rewrite Hback.
  decide_tests. cbn [negb andb].
  f_equal; [|f_equal]; subst cp; div_lia.
Qed.

Lemma code_point_bytes_small (cp : N) :
  (cp < 1114112)%N -> Forall (fun b => (b < 256)%N) (Js.utf8_of_code_point cp).
Proof.
  intros H. unfold Js.utf8_of_code_point.
  decide_tests; repeat constructor; div_lia.
Qed.

Lemma bytes_of_units_two (u v : N) (rest : list N) :
  Js.bytes_of_units (u :: v :: rest)
  = if Js.is_high_surrogate u && Js.is_low_surrogate v then
      Js.utf8_of_code_point (65536 + (u - 55296) * 1024 + (v - 56320))
      ++ Js.bytes_of_units rest
    else Js.utf8_of_code_point u ++ Js.bytes_of_units (v :: rest).
Proof. reflexivity. Qed.

Lemma units_round_trip_aux (n : nat) (us : list N) :
  List.length us <= n ->
  Forall (fun u => (u < 65536)%N) us ->
  Js.units_of_bytes (Js.bytes_of_units us) = us.
Proof.
  revert us. induction n as [|n IH]; intros [|u [|v rest]] Hlen Hall;
    simpl in Hlen; try lia; try reflexivity.
  - cbn [Js.bytes_of_units]. rewrite <- (app_nil_r (Js.utf8_of_code_point u)).
    rewrite decode_code_point by (inversion Hall; assumption). reflexivity.
  - rewrite bytes_of_units_two.
    inversion Hall as [|? ? Hu Hall']; subst. inversion Hall' as [|? ? Hv Hrest]; subst.
    destruct (Js.is_high_surrogate u && Js.is_low_surrogate v) eqn:Hpair.
    + apply andb_true_iff in Hpair as [Hh Hl].
      rewrite decode_surrogate_pair by assumption.
      rewrite IH; [reflexivity | lia | assumption].
    + rewrite decode_code_point by assumption.
      rewrite IH; [reflexivity | simpl; lia | assumption].
Qed.

Lemma units_round_trip (us : list N) :
  Forall (fun u => (u < 65536)%N) us ->
  Js.units_of_bytes (Js.bytes_of_units us) = us.
Proof. apply (units_round_trip_aux (List.length us)). lia. Qed.

Lemma bytes_of_units_small_aux (n : nat) (us : list N) :
  List.length us <= n ->
  Forall (fun u => (u < 65536)%N) us ->
  Forall (fun b => (b < 256)%N) (Js.bytes_of_units us).
Proof.
  revert us. induction n as [|n IH]; intros [|u [|v rest]] Hlen Hall;
    simpl in Hlen; try lia; try constructor.
  - cbn [Js.bytes_of_units]. apply code_point_bytes_small.
    inversion Hall; subst. lia.
  - rewrite bytes_of_units_two.
    inversion Hall as [|? ? Hu Hall']; subst. inversion Hall' as [|? ? Hv Hrest]; subst.
    destruct (Js.is_high_surrogate u && Js.is_low_surrogate v) eqn:Hpair.
    + apply List.Forall_app. split.
      * apply code_point_bytes_small.
        unfold Js.is_high_surrogate, Js.is_low_surrogate in Hpair.
        apply andb_true_iff in Hpair as [Hh Hl].
        apply andb_true_iff in Hh as [_ Hh]. apply andb_true_iff in Hl as [_ Hl].
        apply N.ltb_lt in Hh, Hl. lia.
      * apply IH; [lia | assumption].
    + apply List.Forall_app. split.
      * apply code_point_bytes_small. lia.
      * apply IH; [simpl; lia | assumption].
Qed.

Lemma units_of_bytes_small_aux (n : nat) (bs : list N) :
  List.length bs <= n ->
  Forall (fun b => (b < 256)%N) bs ->
  Forall (fun u => (u < 65536)%N) (Js.units_of_bytes bs).
Proof.
  revert bs. induction n as [|n IH]; intros bs Hlen Hall.
  { destruct bs; [constructor | simpl in Hlen; lia]. }
  destruct bs as [|b0 t0]; [constructor|].
  inversion Hall as [|? ? H0 Hall0]; subst. simpl in Hlen.
  assert (Halone : Forall (fun u => (u < 65536)%N) (b0 :: Js.units_of_bytes t0)).
  { constructor; [lia | apply IH; [lia | assumption]]. }
  cbn [Js.units_of_bytes].
  destruct (b0 <? 192)%N; [exact Halone|].
  destruct t0 as [|b1 t1]; [exact Halone|].
  inversion Hall0 as [|? ? H1 Hall1]; subst. simpl in Hlen.
  destruct (Js.is_continuation b1) eqn:Hcb1; cbn [negb]; [|exact Halone].
  unfold Js.is_continuation in Hcb1. apply andb_true_iff in Hcb1 as [_ Hcb1].
  apply N.ltb_lt in Hcb1.
  destruct (b0 <? 224)%N.
  { constructor; [lia | apply IH; [lia | assumption]]. }
  destruct t1 as [|b2 t2]; [exact Halone|].
  inversion Hall1 as [|? ? H2 Hall2]; subst. simpl in Hlen.
  destruct (Js.is_continuation b2) eqn:Hcb2; cbn [negb]; [|exact Halone].
  unfold Js.is_continuation in Hcb2. apply andb_true_iff in Hcb2 as [_ Hcb2].
  apply N.ltb_lt in Hcb2.
  destruct (N.ltb_spec b0 240).
  { constructor; [lia | apply IH; [lia | assumption]]. }
  destruct t2 as [|b3 t3]; [exact Halone|].
  inversion Hall2 as [|? ? H3 Hall3]; subst. simpl in Hlen.
  match goal with |- context [if ?c then _ else _] => destruct c eqn:Hc end;
    [|exact Halone].
  apply andb_true_iff in Hc as [Hc Hhi]. apply andb_true_iff in Hc as [_ Hlo].
  apply N.leb_le in Hlo. apply N.ltb_lt in Hhi.
  constructor; [div_lia|]. constructor; [div_lia|].
  apply IH; [lia | assumption].
Qed.

Lemma byte_small (c : ascii) : (N_of_ascii c < 256)%N.
Proof. destruct c as [[] [] [] [] [] [] [] []]; reflexivity. Qed.

Lemma bytes_small (s : string) : Forall (fun b => (b < 256)%N) (Js.bytes s).
Proof.
  unfold Js.bytes. induction (list_ascii_of_string s) as [|c l IH]; simpl;
    constructor; [apply byte_small | exact IH].
Qed.

Lemma bytes_of_bytes (bs : list N) :
  Forall (fun b => (b < 256)%N) bs -> Js.bytes (Js.of_bytes bs) = bs.
Proof.
  intros H. unfold Js.bytes, Js.of_bytes.
  rewrite list_ascii_of_string_of_list_ascii.
  induction H as [|b bs Hb _ IH]; simpl; [reflexivity|].
  rewrite N_ascii_embedding by exact Hb. f_equal. exact IH.
Qed.

Lemma units_small (s : string) : Forall (fun u => (u < 65536)%N) (Js.units s).
Proof.
  unfold Js.units.
  apply (units_of_bytes_small_aux (List.length (Js.bytes s)));
    [lia | apply bytes_small].
Qed.

(** Code units written as a string read back as they were. *)
Lemma units_of_units (us : list N) :
  Forall (fun u => (u < 65536)%N) us -> Js.units (Js.of_units us) = us.
Proof.
  intros H. unfold Js.units, Js.of_units.
  rewrite bytes_of_bytes.
  - apply units_round_trip. exact H.
  - apply (bytes_of_units_small_aux (List.length us)); [lia | exact H].
Qed.

Lemma substring_to_whole (n : nat) (s : string) :
  Js.length s <= n -> Js.substring_to n s = s.
Proof.
  intros H. unfold Js.substring_to.
  destruct (Nat.leb_spec (Js.length s) n); [reflexivity | lia].
Qed.

Lemma substring_to_cut (n : nat) (s : string) :
  n < Js.length s -> Js.units (Js.substring_to n s) = firstn n (Js.units s).
Proof.
  intros H. unfold Js.substring_to.
  destruct (Nat.leb_spec (Js.length s) n); [lia|].
  apply units_of_units. apply Forall_take, units_small.
Qed.

(** ** The preview *)

Lemma preview_lines_text (m : Message.t) (text : string) :
  Message.content m = Js.Str text ->
  text <> EmptyString ->
  preview_lines (EObject m)
  = [ (newline ++ "Last AI message preview (first 200 chars):")%string;
      (quote
       ++ (Js.substring_to 200 text
           ++ (if (200 <? Js.length text)%nat then "..." else EmptyString))
       ++ quote)%string ].
Proof.
  intros Hc Hne. unfold preview_lines, content_of. rewrite Hc.
  destruct text as [|c text]; [congruence|].
  change (Js.truthy (Js.Str (String c text))) with true. cbv iota.
  rewrite append_associative. reflexivity.
Qed.

(** X12: the preview.  On a trace of message objects whose most recent
    assistant message has a non-empty string content, the report ends with
    the preview heading, the quoted preview and a rule.  Lengths are counted
    in UTF-16 code units, as [String.prototype.length] and [substring] count
    them: a content of at most 200 code units is shown whole; a longer one is
    cut to its first 200 code units, followed by three dots. *)
Theorem preview_is_cut_at_200
    (w : World) (a : Ref) (ms : list Message.t) (sr : Js.Value)
    (schemaKeys : list string) (m : Message.t) (text : string) :
  holds_trace w a ms ->
  last_ai_message ms = Some m ->
  Message.content m = Js.Str text ->
  text <> EmptyString ->
  exists before shown,
    console (snd (logStrategyAnalysis a sr schemaKeys w))
    = console w ++ before
      ++ [ (newline ++ "Last AI message preview (first 200 chars):")%string;
           (quote ++ shown ++ quote)%string;
           rule ]
    /\ (List.length (Js.units text) <= 200 -> shown = text)
    /\ (200 < List.length (Js.units text) ->
        exists cut,
          shown = (cut ++ "...")%string
          /\ Js.units cut = firstn 200 (Js.units text)
          /\ List.length (Js.units cut) = 200).
Proof.
  intros Hw Hai Hc Hne. unfold logStrategyAnalysis.
  pose proof (returns_objects JSON.parse w a ms sr Hw) as Hr.
  rewrite (run_log JSON.parse w a ms sr schemaKeys _ Hw Hr).
  cbn [snd console]. unfold report. rewrite Hai. cbn [elem_of].
  rewrite (preview_lines_text m text Hc Hne).
  eexists. eexists. split.
  { rewrite (app_assoc _ (schema_lines _ _) _), (app_assoc _ _ [rule]).
    rewrite <- (app_assoc _ _ [rule]). reflexivity. }
  fold (Js.length text). split.
  - intros Hlen. rewrite substring_to_whole by exact Hlen.
    destruct (Nat.ltb_spec 200 (Js.length text)); [lia|].
    apply append_empty.
  - intros Hlen.
    destruct (Nat.ltb_spec 200 (Js.length text)); [|lia].
    exists (Js.substring_to 200 text).
    split; [reflexivity|].
    rewrite (substring_to_cut 200 text Hlen).
    split; [reflexivity|].
    rewrite length_take. unfold Js.length in Hlen. lia.
Qed.

Lemma preview_is_cut_at_200_witness :
  (exists before shown,
    console (snd (logStrategyAnalysis 0 Js.Undefined []
                    (trace_world [AIMessage (Js.Str long_answer) None])))
    = [] ++ before
      ++ [ (newline ++ "Last AI message preview (first 200 chars):")%string;
           (quote ++ shown ++ quote)%string;
           rule ]
    /\ (List.length (Js.units long_answer) <= 200 -> shown = long_answer)
    /\ (200 < List.length (Js.units long_answer) ->
        exists cut,
          shown = (cut ++ "...")%string
          /\ Js.units cut = firstn 200 (Js.units long_answer)
          /\ List.length (Js.units cut) = 200))
  /\ List.length (Js.units long_answer) = 250
  /\ (exists before shown,
    console (snd (logStrategyAnalysis 0 Js.Undefined []
                    (trace_world [AIMessage (Js.Str accented_answer) None])))
    = [] ++ before
      ++ [ (newline ++ "Last AI message preview (first 200 chars):")%string;
           (quote ++ shown ++ quote)%string;
           rule ]
    /\ (List.length (Js.units accented_answer) <= 200 -> shown = accented_answer)
    /\ (200 < List.length (Js.units accented_answer) ->
        exists cut,
          shown = (cut ++ "...")%string
          /\ Js.units cut = firstn 200 (Js.units accented_answer)
          /\ List.length (Js.units cut) = 200))
  /\ List.length (Js.units accented_answer) = 150
  /\ String.length accented_answer = 300.
Proof.
  split; [|split; [reflexivity | split; [|split; reflexivity]]].
  - apply (preview_is_cut_at_200
             (trace_world [AIMessage (Js.Str long_answer) None]) 0
             [AIMessage (Js.Str long_answer) None] Js.Undefined []
             (AIMessage (Js.Str long_answer) None) long_answer).
    + reflexivity.
    + reflexivity.
    + reflexivity.
    + discriminate.
  - apply (preview_is_cut_at_200
             (trace_world [AIMessage (Js.Str accented_answer) None]) 0
             [AIMessage (Js.Str accented_answer) None] Js.Undefined []
             (AIMessage (Js.Str accented_answer) None) accented_answer).
    + reflexivity.
    + reflexivity.
    + reflexivity.
    + discriminate.
Defined.

(** ** Undefined as the mark of content that did not parse *)

Lemma deliver_defined (v : Js.Value) (stack : list JSON.Frame) (v' : Js.Value) :
  v <> Js.Undefined ->
  fst (JSON.deliver v stack) = JSON.XEnd v' -> v' <> Js.Undefined.
Proof.
  intros Hv. destruct stack as [|[items|props k] up]; simpl; try discriminate.
  intros H. injection H as <-. exact Hv.
Qed.

Lemma parse_step_defined (st st' : JSON.ParseState) (t : JSON.Token) (v : Js.Value) :
  JSON.parse_step st t = Some st' ->
  fst st' = JSON.XEnd v -> v <> Js.Undefined.
Proof.
  destruct st as [expect stack].
  unfold JSON.parse_step, JSON.begin_value, JSON.close_array, JSON.close_object,
    JSON.read_key.
  intros Hstep Hend.
  destruct expect; destruct t; try discriminate;
    try (destruct stack as [|[items|props k] up]; try discriminate);
    injection Hstep as <-;
    try discriminate Hend;
    try (eapply deliver_defined; [|exact Hend]; discriminate);
    simpl in Hend; injection Hend as <-; discriminate.
Qed.

Lemma parse_from_defined (ts : list JSON.Token) (st st' : JSON.ParseState)
    (v : Js.Value) :
  (forall v0, fst st = JSON.XEnd v0 -> v0 <> Js.Undefined) ->
  JSON.parse_from st ts = Some st' ->
  fst st' = JSON.XEnd v -> v <> Js.Undefined.
Proof.
  revert st. induction ts as [|t ts IH]; simpl; intros st Hst Hrun Hend.
  - injection Hrun as <-. exact (Hst v Hend).
  - destruct (JSON.parse_step st t) as [st1|] eqn:Hstep; [|discriminate].
    apply (IH st1); auto.
    intros v0 Hv0. exact (parse_step_defined st st1 t v0 Hstep Hv0).
Qed.

(** JSON.parse returns null for the text null; it never returns undefined. *)
Lemma parse_never_undefined (text : string) (v : Js.Value) :
  JSON.parse text = Ok v -> v <> Js.Undefined.
Proof.
  unfold JSON.parse, JSON.value_of_tokens.
  destruct (JSON.tokenize text) as [ts|]; [|discriminate].
  destruct (JSON.parse_from (JSON.XValue, []) ts) as [[expect stack]|] eqn:Hrun;
    [|discriminate].
  destruct expect; try discriminate. intros H. injection H as <-.
  apply (parse_from_defined ts (JSON.XValue, []) (JSON.XEnd v0, stack) v0);
    [discriminate | exact Hrun | reflexivity].
Qed.

(** X13: what an undefined parsedJson means under TOOL_CALLING.  On a trace of
    message objects classified TOOL_CALLING, the record carries parsedJson
    undefined exactly when the most recent assistant message is missing, has
    a content that is not a string, or has a text that JSON.parse rejects;
    JSON.parse itself never yields undefined, so a defined parsedJson is
    always a parse result. *)
Theorem undefined_parsed_json_means_no_parse
    (w : World) (a : Ref) (ms : list Message.t) (sr : Js.Value)
    (r : StrategyAnalysis) :
  holds_trace w a ms ->
  fst (analyzeStructuredOutputStrategy a sr w) = Ok r ->
  strategy r = TOOL_CALLING ->
  (parsedJson r = Some Js.Undefined
   <-> ~ exists m text v,
           last_ai_message ms = Some m
           /\ Message.content m = Js.Str text
           /\ JSON.parse text = Ok v)
  /\ (forall v, parsedJson r = Some v -> v <> Js.Undefined ->
        exists m text,
          last_ai_message ms = Some m
          /\ Message.content m = Js.Str text
          /\ JSON.parse text = Ok v).
Proof.
  intros Hw Hr Hs. unfold analyzeStructuredOutputStrategy in Hr.
  rewrite (returns_objects _ w a ms sr Hw) in Hr. injection Hr as <-.
  destruct (existsb tool_signal (last_five ms)) eqn:Hsig.
  2:{ rewrite (determine_no_signal _ _ _ _ Hsig) in Hs.
      destruct (no_signal_not_tool_calling _ _ _ Hs). }
  rewrite (determine_tool_calling _ _ _ _ Hsig). simpl. clear Hs.
  destruct (last_ai_message ms) as [m|]; simpl.
  2:{ split; [split; [intros _ (m & t & v & H & _); discriminate | reflexivity]|].
      intros v H Hv. injection H as <-. congruence. }
  destruct (Message.content m) as [| |b|n|text|items|props] eqn:Hc; simpl;
    try (split;
         [ split; [intros _ (m' & t & v & H & Hc' & _);
                   injection H as <-; rewrite Hc in Hc'; discriminate
                  | reflexivity]
         | intros v H Hv; injection H as <-; congruence ]).
  destruct (JSON.parse text) as [v|e] eqn:Hp.
  - split.
    + split.
      * intros H. injection H as ->.
        destruct (parse_never_undefined text Js.Undefined Hp eq_refl).
      * intros Hno. destruct Hno. exists m, text, v. auto.
    + intros v' H _. injection H as <-. exists m, text. auto.
  - split.
    + split; [|reflexivity].
      intros _ (m' & t & v & H & Hc' & Hp').
      injection H as <-. rewrite Hc in Hc'. injection Hc' as <-.
      rewrite Hp in Hp'. discriminate.
    + intros v H Hv. injection H as <-. congruence.
Qed.

Lemma undefined_parsed_json_means_no_parse_witness :
  ~ exists m text v,
      last_ai_message named_user_trace = Some m
      /\ Message.content m = Js.Str text
      /\ JSON.parse text = Ok v.
Proof.
  destruct (undefined_parsed_json_means_no_parse
              (trace_world named_user_trace) 0 named_user_trace Js.Undefined
              (mkAnalysis TOOL_CALLING false (tool_calling_details "data-extractor")
                 (Some Js.Undefined))
              eq_refl eq_refl eq_refl)
    as [[Hno _] _].
  exact (Hno eq_refl).
Defined.

(** ** What the provider strategies look at *)

Lemma last_ai_of_split (before after : list Message.t) (m : Message.t) :
  is_ai m = true ->
  existsb is_ai after = false ->
  last_ai_message (before ++ m :: after) = Some m.
Proof.
  intros Hm Hafter. unfold last_ai_message.
  rewrite rev_app_distr. simpl. rewrite <- app_assoc. simpl.
  assert (Hrev : List.find is_ai (rev after ++ m :: rev before) = Some m).
  { assert (Hnone : forall x, In x (rev after) -> is_ai x = false).
    { intros x Hx. apply in_rev in Hx.
      destruct (is_ai x) eqn:Hax; [|reflexivity].
      assert (existsb is_ai after = true) by (apply List.existsb_exists; eauto).
      congruence. }
    induction (rev after) as [|x l IH]; simpl.
    - rewrite Hm. reflexivity.
    - rewrite (Hnone x (or_introl eq_refl)). apply IH.
      intros y Hy. apply Hnone. right. exact Hy. }
  exact Hrev.
Qed.

(** X14: without a tool-calling signal only one message counts.  On a trace of
    message objects with no signal in the last five messages, the result is
    the one the call gives on a trace made of a single assistant message with
    the content of the most recent assistant message: user and tool messages,
    older assistant messages and the other fields of that message have no
    influence. *)
Theorem only_the_last_assistant_content_counts
    (w : World) (a : Ref) (before after : list Message.t) (m : Message.t)
    (sr : Js.Value) :
  holds_trace w a (before ++ m :: after) ->
  is_ai m = true ->
  existsb is_ai after = false ->
  existsb tool_signal (last_five (before ++ m :: after)) = false ->
  fst (analyzeStructuredOutputStrategy a sr w)
  = fst (analyzeStructuredOutputStrategy 0 sr
           (trace_world [AIMessage (Message.content m) None])).
Proof.
  intros Hw Hm Hafter Hsig. unfold analyzeStructuredOutputStrategy.
  rewrite (returns_objects _ w a _ sr Hw), (determine_no_signal _ _ _ _ Hsig).
  rewrite (last_ai_of_split before after m Hm Hafter).
  rewrite (returns_objects _ (trace_world [AIMessage (Message.content m) None]) 0
             [AIMessage (Message.content m) None] sr eq_refl).
  reflexivity.
Qed.

Lemma only_the_last_assistant_content_counts_witness :
  fst (analyzeStructuredOutputStrategy 0 Js.Undefined
         (trace_world
            ([HumanMessage "first question"; AIMessage (Js.Str "{}") None;
              HumanMessage "second question"]
             ++ AIMessage (Js.Str "Here is my answer in prose.") None
             :: [HumanMessage "thanks"])))
  = fst (analyzeStructuredOutputStrategy 0 Js.Undefined
           (trace_world [AIMessage (Js.Str "Here is my answer in prose.") None])).
Proof.
  apply (only_the_last_assistant_content_counts _ 0
           [HumanMessage "first question"; AIMessage (Js.Str "{}") None;
            HumanMessage "second question"]
           [HumanMessage "thanks"]
           (AIMessage (Js.Str "Here is my answer in prose.") None)
           Js.Undefined);
    reflexivity.
Defined.

(** ** Reporting twice *)

(** X15: reports repeat.  On a trace of message objects, a second call of
    logStrategyAnalysis with the same arguments appends the same block of
    lines as the first: the copies the first call made and the lines it
    logged do not change what the second one sees. *)
Theorem second_report_repeats_the_first
    (w : World) (a : Ref) (ms : list Message.t) (sr : Js.Value)
    (schemaKeys : list string) :
  holds_trace w a ms ->
  exists lines,
    console (snd (logStrategyAnalysis a sr schemaKeys w)) = console w ++ lines
    /\ console (snd (logStrategyAnalysis a sr schemaKeys
                       (snd (logStrategyAnalysis a sr schemaKeys w))))
       = console w ++ lines ++ lines.
Proof.
  intros Hw. unfold logStrategyAnalysis.
  pose proof (returns_objects JSON.parse w a ms sr Hw) as Hr.
  rewrite (run_log JSON.parse w a ms sr schemaKeys _ Hw Hr). cbn [snd console].
  eexists. split; [reflexivity|].
  match goal with
  | |- context [logStrategyAnalysisWith _ _ _ _ ?w1] =>
      assert (Hw1 : holds_trace w1 a ms) by (apply lookup_kept; exact Hw);
      pose proof (returns_objects JSON.parse w1 a ms sr Hw1) as Hr1;
      rewrite (run_log JSON.parse w1 a ms sr schemaKeys _ Hw1 Hr1)
  end.
  cbn [snd console]. rewrite <- app_assoc. reflexivity.
Qed.

Lemma second_report_repeats_the_first_witness :
  exists lines,
    title_year_report = [] ++ lines
    /\ console (snd (logStrategyAnalysis 0 Js.Undefined ["title"; "year"; "genre"]
                       (snd (logStrategyAnalysis 0 Js.Undefined
                               ["title"; "year"; "genre"]
                               (trace_world title_year_trace)))))
       = [] ++ lines ++ lines.
Proof.
  exact (second_report_repeats_the_first (trace_world title_year_trace) 0
           title_year_trace Js.Undefined ["title"; "year"; "genre"] eq_refl).
Defined.
